(** * Hypercerts: Hyperboard contracts and the allowlist batch-mint hook

A shallow embedding of
- [contracts/src/hyperboards/HyperboardNFT.sol] (the token-bound-wallet
  variant of the Hyperboard contract),
- the consent-based, non-upgradeable [Hyperboard] contract, and
- [frontend/hooks/mintFractionAllowlistBatch.ts],
followed by the properties established about them.

Solidity functions are functions from the storage (and [msg.sender]) to
either a revert or the new storage together with the emitted events.
The React hook is written in a small state-and-exception monad that
records every observable effect in a log. *)

From Stdlib Require Import ZArith NArith List Bool Ascii String Permutation.
From stdpp Require Import gmap strings list fin_maps.
Import ListNotations.

Local Open Scope string_scope.
Local Open Scope list_scope.
Local Open Scope N_scope.

(** ** Common Solidity vocabulary *)

Module Solidity.

(** [address] is a 160-bit and [uint256], [bytes32] a 256-bit unsigned
    integer. *)
Definition address := N.
Definition uint256 := N.
Definition uint8 := N.
Definition bytes32 := N.
Definition bytes := list N.

Definition address0 : address := 0.
Definition uint256_modulus : N := 2 ^ 256.

(** Custom errors of [libs/Errors.sol], and the [require] failures of the
    OpenZeppelin base contracts the two Hyperboard contracts call into. *)
Inductive Error :=
| ZeroAddress
| ArrayLengthMismatch
| NotOwner
| NotApprovedOrOwner
| InvalidSigner
| FailedToSendEther
| FailedToSendToken
| OwnableCallerIsNotTheOwner
| ERC721InvalidTokenId
| ERC721MintToTheZeroAddress
| ERC721TokenAlreadyMinted
| ECDSAInvalidSignature
| ExternalCallReverted.

Inductive Result (A : Type) :=
| Ok (a : A)
| Revert (e : Error).
Arguments Ok {A} a.
Arguments Revert {A} e.

Definition bind {A B} (r : Result A) (k : A -> Result B) : Result B :=
  match r with
  | Ok a => k a
  | Revert e => Revert e
  end.

(** [if (c) revert E();] *)
Definition revert_if (c : bool) (e : Error) : Result unit :=
  if c then Revert e else Ok tt.

(** An external call that may itself revert. *)
Definition external {A} (o : option A) : Result A :=
  match o with
  | Some a => Ok a
  | None => Revert ExternalCallReverted
  end.

(** A Solidity [mapping] read: absent keys hold the zero value. *)
Definition read `{Countable K} {V} (zero : V) (m : gmap K V) (k : K) : V :=
  default zero (m !! k).

(** [CountersUpgradeable.increment]: an unchecked [+= 1]. *)
Definition increment (c : uint256) : uint256 := (c + 1) mod uint256_modulus.

End Solidity.

(** [Result] is a monad; stdpp's [x ← c; k] and [c ;; k] are used for it. *)
#[global] Instance Result_bind : MBind Solidity.Result :=
  fun A B k r => Solidity.bind r k.
#[global] Instance Result_ret : MRet Solidity.Result := @Solidity.Ok.

(** ** [HyperboardNFT.sol]: contract [Hyperboard] (ERC-6551 variant) *)

Module HyperboardNFT.
Import Solidity.

(** Storage. [struct AllowlistedCerts] holds an array and a nested mapping;
    the nested mapping [_allowListedCertsMapping[id].claimIds[cert]] is keyed
    here by the pair [(id, cert)]. [_owners] is the ERC721 owner table and
    [_owner] the [Ownable] owner. *)
Record State := mkState {
  subgraphEndpoint : string;
  baseUri : string;
  walletImpl : address;
  erc6551Registry : address;
  allowlistedCerts : gmap N (list address);
  claimIds : gmap (N * N) (list uint256);
  tokenWalletMapping : gmap N address;
  _counter : uint256;
  _name : string;
  _symbol : string;
  _owners : gmap N address;
  _owner : address
}.

(** What the chain supplies: [block.chainid], [address(this)] and the
    answer of [IERC6551Registry.createAccount] ([None] when it reverts). *)
Record Env := mkEnv {
  chainid : uint256;
  this : address;
  createAccount :
    address -> address -> uint256 -> address -> uint256 -> uint256 ->
    option address
}.

(** Storage of a contract under construction: every slot is zero. *)
Definition zero_storage : State :=
  {| subgraphEndpoint := ""; baseUri := ""; walletImpl := address0;
     erc6551Registry := address0; allowlistedCerts := ∅; claimIds := ∅;
     tokenWalletMapping := ∅; _counter := 0; _name := ""; _symbol := "";
     _owners := ∅; _owner := address0 |}.

Definition set_walletImpl (a : address) (s : State) : State :=
  mkState (subgraphEndpoint s) (baseUri s) a (erc6551Registry s)
    (allowlistedCerts s) (claimIds s) (tokenWalletMapping s) (_counter s)
    (_name s) (_symbol s) (_owners s) (_owner s).
Definition set_erc6551Registry (a : address) (s : State) : State :=
  mkState (subgraphEndpoint s) (baseUri s) (walletImpl s) a
    (allowlistedCerts s) (claimIds s) (tokenWalletMapping s) (_counter s)
    (_name s) (_symbol s) (_owners s) (_owner s).
Definition set_subgraphEndpoint (e : string) (s : State) : State :=
  mkState e (baseUri s) (walletImpl s) (erc6551Registry s)
    (allowlistedCerts s) (claimIds s) (tokenWalletMapping s) (_counter s)
    (_name s) (_symbol s) (_owners s) (_owner s).
Definition set_baseUri (u : string) (s : State) : State :=
  mkState (subgraphEndpoint s) u (walletImpl s) (erc6551Registry s)
    (allowlistedCerts s) (claimIds s) (tokenWalletMapping s) (_counter s)
    (_name s) (_symbol s) (_owners s) (_owner s).
Definition set_allowlistedCerts (m : gmap N (list address)) (s : State) : State :=
  mkState (subgraphEndpoint s) (baseUri s) (walletImpl s) (erc6551Registry s)
    m (claimIds s) (tokenWalletMapping s) (_counter s)
    (_name s) (_symbol s) (_owners s) (_owner s).
Definition set_claimIds (m : gmap (N * N) (list uint256)) (s : State) : State :=
  mkState (subgraphEndpoint s) (baseUri s) (walletImpl s) (erc6551Registry s)
    (allowlistedCerts s) m (tokenWalletMapping s) (_counter s)
    (_name s) (_symbol s) (_owners s) (_owner s).
Definition set_tokenWalletMapping (m : gmap N address) (s : State) : State :=
  mkState (subgraphEndpoint s) (baseUri s) (walletImpl s) (erc6551Registry s)
    (allowlistedCerts s) (claimIds s) m (_counter s)
    (_name s) (_symbol s) (_owners s) (_owner s).
Definition set_counter (c : uint256) (s : State) : State :=
  mkState (subgraphEndpoint s) (baseUri s) (walletImpl s) (erc6551Registry s)
    (allowlistedCerts s) (claimIds s) (tokenWalletMapping s) c
    (_name s) (_symbol s) (_owners s) (_owner s).
Definition set_name_symbol (n y : string) (s : State) : State :=
  mkState (subgraphEndpoint s) (baseUri s) (walletImpl s) (erc6551Registry s)
    (allowlistedCerts s) (claimIds s) (tokenWalletMapping s) (_counter s)
    n y (_owners s) (_owner s).
Definition set_owners (m : gmap N address) (s : State) : State :=
  mkState (subgraphEndpoint s) (baseUri s) (walletImpl s) (erc6551Registry s)
    (allowlistedCerts s) (claimIds s) (tokenWalletMapping s) (_counter s)
    (_name s) (_symbol s) m (_owner s).

(** *** ERC721 base *)

Definition __ERC721_init (name_ symbol_ : string) (s : State) : State :=
  set_name_symbol name_ symbol_ s.

(** [ERC721.ownerOf]: reverts for a token that was never minted. *)
Definition ownerOf (s : State) (tokenId : uint256) : Result address :=
  let owner := read address0 (_owners s) tokenId in
  revert_if (owner =? address0) ERC721InvalidTokenId ;;
  Ok owner.

Definition _mint (to : address) (tokenId : uint256) (s : State) : Result State :=
  revert_if (to =? address0) ERC721MintToTheZeroAddress ;;
  revert_if (negb (read address0 (_owners s) tokenId =? address0))
    ERC721TokenAlreadyMinted ;;
  Ok (set_owners (<[tokenId := to]> (_owners s)) s).

(** *** The contract *)

(** The constructor runs on [zero_storage]; its two guards read the state
    variables [walletImpl] and [erc6551Registry], not the parameters. *)
Definition constructor (name_ symbol_ subgraphEndpoint_ baseUri_ : string)
    (walletImpl_ erc6551Registry_ : address) : Result State :=
  let s := zero_storage in
  revert_if (walletImpl s =? address0) ZeroAddress ;;
  revert_if (erc6551Registry s =? address0) ZeroAddress ;;
  let s := set_walletImpl walletImpl_ s in
  let s := set_erc6551Registry erc6551Registry_ s in
  let s := __ERC721_init name_ symbol_ s in
  let s := set_subgraphEndpoint subgraphEndpoint_ s in
  let s := set_baseUri baseUri_ s in
  Ok s.

(** The loop of [_setAllowlist]: at index [i] it stores
    [allowlistedClaimIds_[i]] under the key
    [(_counter.current(), allowlistedCertsAddress_[i])]. The two arrays
    have equal length when the loop is reached. *)
Fixpoint _setAllowlist_loop (certs : list address) (ids : list (list uint256))
    (s : State) : State :=
  match certs, ids with
  | c :: certs', l :: ids' =>
      _setAllowlist_loop certs' ids'
        (set_claimIds (<[(_counter s, c) := l]> (claimIds s)) s)
  | _, _ => s
  end.

Definition _setAllowlist (tokenId : uint256)
    (allowlistedCertsAddress_ : list address)
    (allowlistedClaimIds_ : list (list uint256)) (s : State) : Result State :=
  revert_if
    (negb (N.of_nat (length allowlistedCertsAddress_)
           =? N.of_nat (length allowlistedClaimIds_)))
    ArrayLengthMismatch ;;
  let s :=
    set_allowlistedCerts
      (<[tokenId := allowlistedCertsAddress_]> (allowlistedCerts s)) s in
  Ok (_setAllowlist_loop allowlistedCertsAddress_ allowlistedClaimIds_ s).

Definition mint (env : Env) (s : State) (to : address)
    (allowlistedCertsAddress_ : list address)
    (allowlistedClaimIds_ : list (list uint256)) (salt : uint256)
    : Result (State * uint256) :=
  revert_if
    (negb (N.of_nat (length allowlistedCertsAddress_)
           =? N.of_nat (length allowlistedClaimIds_)))
    ArrayLengthMismatch ;;
  revert_if (to =? address0) ZeroAddress ;;
  let tokenId := _counter s in
  s ← _mint to tokenId s;
  s ← _setAllowlist tokenId allowlistedCertsAddress_ allowlistedClaimIds_ s;
  wallet ← external
    (createAccount env (erc6551Registry s) (walletImpl s) (chainid env)
       (this env) tokenId salt);
  let s := set_tokenWalletMapping (<[tokenId := wallet]> (tokenWalletMapping s)) s in
  let s := set_counter (increment (_counter s)) s in
  Ok (s, tokenId).

Definition updateAllowListedCerts (s : State) (sender : address)
    (tokenId : uint256) (allowlistedCertsAddress_ : list address)
    (allowlistedClaimIds_ : list (list uint256)) : Result State :=
  owner ← ownerOf s tokenId;
  revert_if (negb (owner =? sender)) NotOwner ;;
  _setAllowlist tokenId allowlistedCertsAddress_ allowlistedClaimIds_ s.

Definition getAllowListedCerts (s : State) (tokenId : uint256) : list address :=
  read [] (allowlistedCerts s) tokenId.

Definition getAllowListedClaimIds (s : State) (tokenId : uint256)
    (hypercertAddress : address) : list uint256 :=
  read [] (claimIds s) (tokenId, hypercertAddress).

(** [modifier onlyOwner] of [OwnableUpgradeable]. *)
Definition onlyOwner (s : State) (sender : address) : Result unit :=
  revert_if (negb (_owner s =? sender)) OwnableCallerIsNotTheOwner.

Definition setSubgraphEndpoint (s : State) (sender : address)
    (endpoint_ : string) : Result State :=
  onlyOwner s sender ;;
  Ok (set_subgraphEndpoint endpoint_ s).

Definition setWalletImpl (s : State) (sender : address) (walletImpl_ : address)
    : Result State :=
  onlyOwner s sender ;;
  Ok (set_walletImpl walletImpl_ s).

Definition setErc6551Registry (s : State) (sender : address)
    (erc6551Registry_ : address) : Result State :=
  onlyOwner s sender ;;
  Ok (set_erc6551Registry erc6551Registry_ s).

(** *** Reading the storage *)

(** The token [tokenId] has been minted. *)
Definition minted (s : State) (tokenId : uint256) : Prop :=
  read address0 (_owners s) tokenId <> address0.

(** Every minted token has an id below the counter. *)
Definition minted_below_counter (s : State) : Prop :=
  forall tokenId, minted s tokenId -> tokenId < _counter s.

(** The storage a successful [mint] leaves behind. *)
Definition minted_storage (s : State) (to : address) (certs : list address)
    (ids : list (list uint256)) (wallet : address) : State :=
  set_counter (increment (_counter s))
    (set_tokenWalletMapping (<[_counter s := wallet]> (tokenWalletMapping s))
       (_setAllowlist_loop certs ids
          (set_allowlistedCerts (<[_counter s := certs]> (allowlistedCerts s))
             (set_owners (<[_counter s := to]> (_owners s)) s)))).

(** [cert] occurs in [certs] at index [i] and nowhere after it. *)
Definition last_at (certs : list address) (i : nat) (cert : address) : Prop :=
  nth_error certs i = Some cert
  /\ forall j, (i < j)%nat -> nth_error certs j <> Some cert.

(** *** Sample surroundings *)

(** A chain on which the registry hands out the wallet [0x6551]. *)
Definition a_chain : Env :=
  {| chainid := 1; this := 0x1000;
     createAccount := fun _ _ _ _ _ _ => Some 0x6551 |}.

(** A deployed board without tokens. *)
Definition a_board : State :=
  set_erc6551Registry 0x2000 (set_walletImpl 0x3000 zero_storage).

(** [a_board] after [mint(0xA11CE, [0xCE27], [[1]], 0)], and after the owner's
    [updateAllowListedCerts(0, [0xCE27], [[2]])] that follows. *)
Definition a_board_minted : State :=
  minted_storage a_board 0xA11CE [0xCE27] [[1]] 0x6551.

Definition a_board_updated : State :=
  _setAllowlist_loop [0xCE27] [[2]]
    (set_allowlistedCerts (<[0 := [0xCE27]]> (allowlistedCerts a_board_minted))
       a_board_minted).

(** [a_board_updated] after [mint(0xB0B, [0xFEED], [[3]], 0)]. *)
Definition a_board_minted_again : State :=
  minted_storage a_board_updated 0xB0B [0xFEED] [[3]] 0x6551.

End HyperboardNFT.

(** ** The consent-based [Hyperboard] contract (ERC721, Ownable, EIP712) *)

Module Hyperboard.
Import Solidity.

Record State := mkState {
  subgraphEndpoint : string;
  baseUri : string;
  hypercertMinter : address;
  _allowListedCertsMapping : gmap N (list uint256);
  consentBasedCertsMapping : gmap N (list uint256);
  _counter : uint256;
  _owners : gmap N address;
  _tokenURIs : gmap N string;
  _owner : address
}.

Inductive Event :=
| Mint (to : address) (tokenId : uint256) (metadata : string)
| GotConsent (tokenId claimId : uint256) (owner : address)
| WithdrawToken (to tokenAddress : address) (amount : uint256)
| SubgraphUpdated (endpoint : string)
| BaseUriUpdated (baseUri : string)
| HypercertMinterUpdated (hypercertMinter : address).

(** The collaborators of the contract: hashing and ABI encoding, the
    EIP-712 domain hash [_hashTypedDataV4], OpenZeppelin's [ECDSA.recover]
    ([None] when it reverts on a malformed signature) and the external
    call [HypercertMinter(minter).ownerOf(claimId)] ([None] when that call
    reverts). *)
Record Env := mkEnv {
  bytes_of_string : string -> bytes;
  abi_encode : list uint256 -> bytes;
  keccak256 : bytes -> bytes32;
  _hashTypedDataV4 : bytes32 -> bytes32;
  ECDSA_recover : bytes32 -> uint8 -> bytes32 -> bytes32 -> option address;
  minter_ownerOf : address -> uint256 -> option address
}.

Definition set_subgraphEndpoint (e : string) (s : State) : State :=
  mkState e (baseUri s) (hypercertMinter s) (_allowListedCertsMapping s)
    (consentBasedCertsMapping s) (_counter s) (_owners s) (_tokenURIs s)
    (_owner s).
Definition set_baseUri (u : string) (s : State) : State :=
  mkState (subgraphEndpoint s) u (hypercertMinter s)
    (_allowListedCertsMapping s) (consentBasedCertsMapping s) (_counter s)
    (_owners s) (_tokenURIs s) (_owner s).
Definition set_hypercertMinter (a : address) (s : State) : State :=
  mkState (subgraphEndpoint s) (baseUri s) a (_allowListedCertsMapping s)
    (consentBasedCertsMapping s) (_counter s) (_owners s) (_tokenURIs s)
    (_owner s).
Definition set_allowListedCertsMapping (m : gmap N (list uint256)) (s : State)
    : State :=
  mkState (subgraphEndpoint s) (baseUri s) (hypercertMinter s) m
    (consentBasedCertsMapping s) (_counter s) (_owners s) (_tokenURIs s)
    (_owner s).
Definition set_consentBasedCertsMapping (m : gmap N (list uint256)) (s : State)
    : State :=
  mkState (subgraphEndpoint s) (baseUri s) (hypercertMinter s)
    (_allowListedCertsMapping s) m (_counter s) (_owners s) (_tokenURIs s)
    (_owner s).
Definition set_tokenURIs (m : gmap N string) (s : State) : State :=
  mkState (subgraphEndpoint s) (baseUri s) (hypercertMinter s)
    (_allowListedCertsMapping s) (consentBasedCertsMapping s) (_counter s)
    (_owners s) m (_owner s).

(** The outcome of a transaction on storage [s]: a revert rolls back. *)
Definition state_after (s : State) (r : Result (State * list Event)) : State :=
  match r with
  | Ok (s', _) => s'
  | Revert _ => s
  end.

Definition events_of (r : Result (State * list Event)) : list Event :=
  match r with
  | Ok (_, evs) => evs
  | Revert _ => []
  end.

(** *** Base contracts *)

(** [modifier onlyOwner] of [Ownable]. *)
Definition onlyOwner (s : State) (sender : address) : Result unit :=
  revert_if (negb (_owner s =? sender)) OwnableCallerIsNotTheOwner.

Definition ownerOf (s : State) (tokenId : uint256) : Result address :=
  let owner := read address0 (_owners s) tokenId in
  revert_if (owner =? address0) ERC721InvalidTokenId ;;
  Ok owner.

(** [ERC721URIStorage._setTokenURI]: the token must exist. *)
Definition _setTokenURI (tokenId : uint256) (uri : string) (s : State)
    : Result State :=
  revert_if (read address0 (_owners s) tokenId =? address0)
    ERC721InvalidTokenId ;;
  Ok (set_tokenURIs (<[tokenId := uri]> (_tokenURIs s)) s).

(** *** The contract *)

Definition _setAllowlist (tokenId : uint256)
    (allowlistedClaimIds_ : list uint256) (s : State) : State :=
  set_allowListedCertsMapping
    (<[tokenId := allowlistedClaimIds_]> (_allowListedCertsMapping s)) s.

(** The digest both [consentForHyperboardWithSignature] and
    [getDigestForConsent] compute. *)
Definition consentDigest (env : Env) (tokenId_ claimId_ : uint256) : bytes32 :=
  _hashTypedDataV4 env
    (keccak256 env
       (abi_encode env
          [keccak256 env
             (bytes_of_string env
                "ConsentForHyperBoard(uint256 tokenId_,uint256 claimId_)");
           tokenId_; claimId_])).

Definition getDigestForConsent (env : Env) (tokenId_ claimId_ : uint256)
    : bytes32 :=
  consentDigest env tokenId_ claimId_.

(** The array [consentBasedCertsMapping[tokenId]]. *)
Definition consented (s : State) (tokenId : uint256) : list uint256 :=
  read [] (consentBasedCertsMapping s) tokenId.

Definition _consentForHyperboard (env : Env) (s : State) (sender : address)
    (tokenId_ claimId_ : uint256) (owner_ : address)
    : Result (State * list Event) :=
  claimOwner ← external (minter_ownerOf env (hypercertMinter s) claimId_);
  revert_if (negb (claimOwner =? owner_)) NotApprovedOrOwner ;;
  let s :=
    set_consentBasedCertsMapping
      (<[tokenId_ := consented s tokenId_ ++ [claimId_]]>
         (consentBasedCertsMapping s)) s in
  Ok (s, [GotConsent tokenId_ claimId_ sender]).

Definition consentForHyperboard (env : Env) (s : State) (sender : address)
    (tokenId_ claimId_ : uint256) : Result (State * list Event) :=
  _consentForHyperboard env s sender tokenId_ claimId_ sender.

Definition consentForHyperboardWithSignature (env : Env) (s : State)
    (sender : address) (tokenId_ claimId_ : uint256) (signer : address)
    (r s_ : bytes32) (v : uint8) : Result (State * list Event) :=
  let digest := consentDigest env tokenId_ claimId_ in
  recoveredSigner ←
    match ECDSA_recover env digest v r s_ with
    | Some a => Ok a
    | None => Revert ECDSAInvalidSignature
    end;
  revert_if (negb (recoveredSigner =? signer)) InvalidSigner ;;
  _consentForHyperboard env s sender tokenId_ claimId_ signer.

Definition updateHyperboad (s : State) (sender : address) (tokenId_ : uint256)
    (allowlistedClaimIds_ : list uint256) (metadata_ : string)
    : Result (State * list Event) :=
  owner ← ownerOf s tokenId_;
  revert_if (negb (owner =? sender)) NotApprovedOrOwner ;;
  s ← _setTokenURI tokenId_ metadata_ s;
  Ok (_setAllowlist tokenId_ allowlistedClaimIds_ s, []).

Definition getAllowListedCerts (s : State) (tokenId : uint256) : list uint256 :=
  read [] (_allowListedCertsMapping s) tokenId.

Definition setSubgraphEndpoint (s : State) (sender : address)
    (endpoint_ : string) : Result (State * list Event) :=
  onlyOwner s sender ;;
  let s := set_subgraphEndpoint endpoint_ s in
  Ok (s, [SubgraphUpdated (subgraphEndpoint s)]).

Definition setBaseUri (s : State) (sender : address) (baseUri_ : string)
    : Result (State * list Event) :=
  onlyOwner s sender ;;
  let s := set_baseUri baseUri_ s in
  Ok (s, [BaseUriUpdated (baseUri s)]).

(** [hypercertMinter_ = hypercertMinter;] assigns to the parameter, a local
    variable; the storage is not written. *)
Definition setHypercertContract (s : State) (sender : address)
    (hypercertMinter_ : address) : Result (State * list Event) :=
  onlyOwner s sender ;;
  let hypercertMinter_ := hypercertMinter s in
  Ok (s, [HypercertMinterUpdated hypercertMinter_]).

(** *** Minting *)

Definition set_owners (m : gmap N address) (s : State) : State :=
  mkState (subgraphEndpoint s) (baseUri s) (hypercertMinter s)
    (_allowListedCertsMapping s) (consentBasedCertsMapping s) (_counter s)
    m (_tokenURIs s) (_owner s).
Definition set_counter (c : uint256) (s : State) : State :=
  mkState (subgraphEndpoint s) (baseUri s) (hypercertMinter s)
    (_allowListedCertsMapping s) (consentBasedCertsMapping s) c
    (_owners s) (_tokenURIs s) (_owner s).

(** [ERC721._mint], on the owner table. The balances and the index of
    [ERC721Enumerable] are not part of [State], and the events of the base
    contracts are not listed among the events of a call. *)
Definition _mint (to : address) (tokenId : uint256) (s : State) : Result State :=
  revert_if (to =? address0) ERC721MintToTheZeroAddress ;;
  revert_if (negb (read address0 (_owners s) tokenId =? address0))
    ERC721TokenAlreadyMinted ;;
  Ok (set_owners (<[tokenId := to]> (_owners s)) s).

Definition mint (s : State) (to : address)
    (allowlistedClaimIds_ : list uint256) (metadata_ : string)
    : Result (State * list Event * uint256) :=
  revert_if (to =? address0) ZeroAddress ;;
  let tokenId := _counter s in
  s ← _mint to tokenId s;
  s ← _setTokenURI tokenId metadata_ s;
  let s := _setAllowlist tokenId allowlistedClaimIds_ s in
  let s := set_counter (increment (_counter s)) s in
  Ok (s, [Mint to tokenId metadata_], tokenId).

(** [_tokenURIs[tokenId]], the metadata behind [tokenURI]. *)
Definition metadataOf (s : State) (tokenId : uint256) : string :=
  read "" (_tokenURIs s) tokenId.

(** The token [tokenId] has been minted. *)
Definition minted (s : State) (tokenId : uint256) : Prop :=
  read address0 (_owners s) tokenId <> address0.

(** *** Transactions *)

(** The state-changing external functions modelled above. *)
Inductive Call :=
| CallMint (to : address) (allowlistedClaimIds_ : list uint256)
    (metadata_ : string)
| CallConsentForHyperboard (tokenId_ claimId_ : uint256)
| CallConsentForHyperboardWithSignature (tokenId_ claimId_ : uint256)
    (signer : address) (r s_ : bytes32) (v : uint8)
| CallUpdateHyperboad (tokenId_ : uint256)
    (allowlistedClaimIds_ : list uint256) (metadata_ : string)
| CallSetSubgraphEndpoint (endpoint_ : string)
| CallSetBaseUri (baseUri_ : string)
| CallSetHypercertContract (hypercertMinter_ : address).

Definition execute (env : Env) (s : State) (sender : address) (c : Call)
    : Result (State * list Event) :=
  match c with
  | CallMint to ids metadata_ =>
      r ← mint s to ids metadata_; Ok (fst r)
  | CallConsentForHyperboard tokenId_ claimId_ =>
      consentForHyperboard env s sender tokenId_ claimId_
  | CallConsentForHyperboardWithSignature tokenId_ claimId_ signer r s_ v =>
      consentForHyperboardWithSignature env s sender tokenId_ claimId_ signer
        r s_ v
  | CallUpdateHyperboad tokenId_ ids metadata_ =>
      updateHyperboad s sender tokenId_ ids metadata_
  | CallSetSubgraphEndpoint endpoint_ => setSubgraphEndpoint s sender endpoint_
  | CallSetBaseUri baseUri_ => setBaseUri s sender baseUri_
  | CallSetHypercertContract hypercertMinter_ =>
      setHypercertContract s sender hypercertMinter_
  end.

(** The storage after a sequence of transactions, each with its sender. *)
Fixpoint execute_all (env : Env) (s : State) (txs : list (address * Call))
    : State :=
  match txs with
  | [] => s
  | (sender, c) :: txs' =>
      execute_all env (state_after s (execute env s sender c)) txs'
  end.

(** *** Sample surroundings *)

(** A board owned by [0xDE9107] whose minter is [0x4000]. *)
Definition a_board : State :=
  {| subgraphEndpoint := ""; baseUri := ""; hypercertMinter := 0x4000;
     _allowListedCertsMapping := ∅; consentBasedCertsMapping := ∅;
     _counter := 1; _owners := {[ 0 := 0xB0A2D ]}; _tokenURIs := ∅;
     _owner := 0xDE9107 |}.

(** A chain where every claim belongs to [0xA11CE] and every signature
    recovers to [recovers]. *)
Definition a_chain (recovers : address) : Env :=
  {| bytes_of_string := fun _ => []; abi_encode := fun l => l;
     keccak256 := fun b => N.of_nat (length b);
     _hashTypedDataV4 := fun h => h;
     ECDSA_recover := fun _ _ _ _ => Some recovers;
     minter_ownerOf := fun _ _ => Some 0xA11CE |}.

End Hyperboard.

(** ** [frontend/hooks/mintFractionAllowlistBatch.ts] *)

Module MintFractionAllowlistBatch.

Local Open Scope Z_scope.

(** *** Values *)

Definition HexString := string.

(** A thrown or rejected JavaScript value, by its message. *)
Definition Error := string.

(** [ClaimProof] of [./verifyFractionClaim]: an object with the properties
    the hook reads, [claimIDContract], [units] and [proof]. *)
Record ClaimProof := mkClaimProof {
  claimIDContract : string;
  units : Z;
  proof : list HexString
}.

(** [BigInt(n)] of an integral number is that integer. *)
Definition BigInt (n : Z) : Z := n.

(** What one call of [verifyFractionClaim] resolves to: a single value or an
    array of values, each of them a [ClaimProof] or something falsy
    ([None]: [undefined], [null], [false]). *)
Inductive VerifyResult :=
| Single (x : option ClaimProof)
| Many (xs : list (option ClaimProof)).

(** A settled promise. *)
Inductive Settled (A : Type) :=
| Resolved (a : A)
| Rejected (e : Error).
Arguments Resolved {A} a.
Arguments Rejected {A} e.

Record Receipt := mkReceipt { status : option Z }.

Record Tx := mkTx { wait : nat -> Settled Receipt }.

Record Client := mkClient {
  batchMintClaimFractionsFromAllowlists :
    list string -> list Z -> list (list HexString) -> Settled Tx;
  readonly : bool
}.

Inductive Step := initial | proofs | minting | waiting | complete.

Inductive ToastType := error | success.

(** Every effect the hook has on its surroundings. *)
Inductive Effect :=
| ShowModal
| HideModal
| SetStep (s : Step)
| SetTxPending (b : bool)
| CallVerifyFractionClaim (claimId address : string)
| ConsoleLog (label : string)
| ConsoleError (what : string)
| CallBatchMint (claimIDs : list string) (units : list Z)
    (proofs : list (list HexString))
| CallWait (confirmations : nat)
| Toast (message : string) (type : ToastType)
| CallOnComplete.

(** What the hook is given by React and by the hooks it calls:
    [useAccountLowerCase], [useGetAllEligibility], [useVerifyFractionClaim],
    [useParseBlockchainError], [useHypercertClient], the labels of
    [mintInteractionLabels] and the optional [onComplete], which returns
    or throws when called. *)
Record Hooks := mkHooks {
  address : option string;
  claimIds : option (list string);
  verifyFractionClaim : string -> string -> Settled VerifyResult;
  parseError : Error -> string -> string;
  client : option Client;
  isLoading : bool;
  toastSuccess : string;
  toastError : string;
  onComplete : option (Settled unit)
}.

(** *** lodash and array helpers *)

(** [Array.prototype.flat()], depth 1. *)
Definition flat (results : list VerifyResult) : list (option ClaimProof) :=
  flat_map (fun r => match r with Single x => [x] | Many xs => xs end) results.

(** [.filter((x) => x)] *)
Fixpoint filter_truthy (xs : list (option ClaimProof)) : list ClaimProof :=
  match xs with
  | [] => []
  | Some cp :: xs' => cp :: filter_truthy xs'
  | None :: xs' => filter_truthy xs'
  end.

Fixpoint list_eqb {A} (eqb : A -> A -> bool) (l1 l2 : list A) : bool :=
  match l1, l2 with
  | [], [] => true
  | x :: l1', y :: l2' => eqb x y && list_eqb eqb l1' l2'
  | _, _ => false
  end.

(** [_.isEqual] on two [ClaimProof] objects: a deep comparison, own
    property by own property. *)
Definition isEqual (a b : ClaimProof) : bool :=
  String.eqb (claimIDContract a) (claimIDContract b)
  && Z.eqb (units a) (units b)
  && list_eqb String.eqb (proof a) (proof b).

(** [arrayIncludesWith(array, value, comparator)] of lodash. *)
Definition arrayIncludesWith {A} (array : list A) (value : A)
    (comparator : A -> A -> bool) : bool :=
  existsb (comparator value) array.

(** [_.uniqWith(array, comparator)]: lodash's [baseUniq] walks the array
    from the left and pushes a value onto [result] unless [result] already
    includes it under the comparator. *)
Definition baseUniq {A} (comparator : A -> A -> bool) (array : list A)
    : list A :=
  fold_left
    (fun result value =>
       if arrayIncludesWith result value comparator then result
       else result ++ [value])
    array [].

Definition uniqWith {A} (array : list A) (comparator : A -> A -> bool)
    : list A :=
  baseUniq comparator array.

(** [Promise.all]: resolves to all results, or rejects with a rejection of
    its arguments (the leftmost one here). *)
Fixpoint promise_all {A} (ps : list (Settled A)) : Settled (list A) :=
  match ps with
  | [] => Resolved []
  | Resolved a :: ps' =>
      match promise_all ps' with
      | Resolved l => Resolved (a :: l)
      | Rejected e => Rejected e
      end
  | Rejected e :: _ => Rejected e
  end.

(** *** The monad of the hook: UI state, exceptions and a trace *)

Record UI := mkUI {
  txPending : bool;
  step : option Step;
  modalVisible : bool
}.

(** [useState(false)]; the modal of [useContractModal] starts closed. *)
Definition initialUI : UI :=
  {| txPending := false; step := None; modalVisible := false |}.

Inductive Completion (A : Type) :=
| Normal (a : A)
| Throw (e : Error).
Arguments Normal {A} a.
Arguments Throw {A} e.

Definition M (A : Type) : Type := UI -> Completion A * UI * list Effect.

Definition ret {A} (a : A) : M A := fun ui => (Normal a, ui, []).

Definition bind {A B} (m : M A) (k : A -> M B) : M B :=
  fun ui =>
    match m ui with
    | (Normal a, ui', t) =>
        let '(c, ui'', t') := k a ui' in (c, ui'', t ++ t')
    | (Throw e, ui', t) => (Throw e, ui', t)
    end.

Definition throw {A} (e : Error) : M A := fun ui => (Throw e, ui, []).

(** [try { body } catch (error) { handler } finally { finalizer }] *)
Definition try_catch_finally {A} (body : M A) (handler : Error -> M A)
    (finalizer : M unit) : M A :=
  fun ui =>
    let '(c, ui1, t1) :=
      match body ui with
      | (Normal a, ui', t) => (Normal a, ui', t)
      | (Throw e, ui', t) =>
          let '(c, ui'', t') := handler e ui' in (c, ui'', t ++ t')
      end in
    match finalizer ui1 with
    | (Normal _, ui2, t2) => (c, ui2, t1 ++ t2)
    | (Throw e, ui2, t2) => (Throw e, ui2, t1 ++ t2)
    end.

(** [await p] *)
Definition await {A} (p : Settled A) : M A :=
  match p with
  | Resolved a => ret a
  | Rejected e => throw e
  end.

Definition when (c : bool) (m : M unit) : M unit := if c then m else ret tt.

Definition emit (e : Effect) : M unit := fun ui => (Normal tt, ui, [e]).

Definition setStep (s : Step) : M unit :=
  fun ui =>
    (Normal tt,
     {| txPending := txPending ui; step := Some s;
        modalVisible := modalVisible ui |},
     [SetStep s]).

Definition showModal : M unit :=
  fun ui =>
    (Normal tt,
     {| txPending := txPending ui; step := step ui; modalVisible := true |},
     [ShowModal]).

Definition hideModal : M unit :=
  fun ui =>
    (Normal tt,
     {| txPending := txPending ui; step := step ui; modalVisible := false |},
     [HideModal]).

Definition setTxPending (b : bool) : M unit :=
  fun ui =>
    (Normal tt,
     {| txPending := b; step := step ui; modalVisible := modalVisible ui |},
     [SetTxPending b]).

Definition toast (message : string) (type : ToastType) : M unit :=
  emit (Toast message type).

#[global] Instance M_bind : MBind M := fun A B k m => bind m k.
#[global] Instance M_ret : MRet M := @ret.

(** *** [useMintFractionAllowlistBatch] *)

(** [!address]: [undefined] and the empty string are falsy. *)
Definition falsy (s : option string) : bool :=
  match s with
  | None => true
  | Some s => String.eqb s ""
  end.

(** [claimIds.map((claimId) => verifyFractionClaim(claimId, address))]:
    every call is made, in order, and yields its promise. *)
Fixpoint callVerifyFractionClaim (h : Hooks) (ids : list string)
    (address : string) : M (list (Settled VerifyResult)) :=
  match ids with
  | [] => ret []
  | claimId :: ids' =>
      emit (CallVerifyFractionClaim claimId address) ;;
      ps ← callVerifyFractionClaim h ids' address;
      ret (verifyFractionClaim h claimId address :: ps)
  end.

(** Lines 56-61: [verified], [unique] and the three arrays handed to the
    contract call. The locals [units] and [proofs] are [unitAmounts] and
    [proofArrays] here, as [units] is a field of [ClaimProof] and [proofs] a
    step of the modal. *)
Definition verified (results : list VerifyResult) : list ClaimProof :=
  filter_truthy (flat results).

Definition unique (results : list VerifyResult) : list ClaimProof :=
  uniqWith (verified results) isEqual.

Definition claimIDs (results : list VerifyResult) : list string :=
  map (fun claimProof => claimIDContract claimProof) (unique results).

Definition unitAmounts (results : list VerifyResult) : list Z :=
  map (fun claimProof => BigInt (units claimProof)) (unique results).

Definition proofArrays (results : list VerifyResult) : list (list HexString) :=
  map (fun claimProof => proof claimProof) (unique results).

(** [onComplete?.()] *)
Definition callOnComplete (h : Hooks) : M unit :=
  match onComplete h with
  | None => ret tt
  | Some outcome =>
      emit CallOnComplete ;;
      match outcome with
      | Resolved _ => ret tt
      | Rejected e => throw e
      end
  end.

(** [client.batchMintClaimFractionsFromAllowlists(...)]; reading a property
    of an undefined [client] throws a [TypeError]. *)
Definition callBatchMint (h : Hooks) (ids : list string) (us : list Z)
    (ps : list (list HexString)) : M Tx :=
  match client h with
  | None => throw "TypeError: client is undefined"
  | Some c =>
      emit (CallBatchMint ids us ps) ;;
      await (batchMintClaimFractionsFromAllowlists c ids us ps)
  end.

Definition callWait (tx : Tx) (confirmations : nat) : M Receipt :=
  emit (CallWait confirmations) ;;
  await (wait tx confirmations).

(** [receipt.status === n] *)
Definition status_is (receipt : Receipt) (n : Z) : bool :=
  match status receipt with
  | Some k => Z.eqb k n
  | None => false
  end.

(** Lines 69-99: the [try] / [catch] / [finally] statement. *)
Definition mintAndWait (h : Hooks) (claimIDs : list string) (units : list Z)
    (proofs : list (list HexString)) : M unit :=
  try_catch_finally
    (setTxPending true ;;
     tx ← callBatchMint h claimIDs units proofs;
     setStep waiting ;;
     receipt ← callWait tx 5;
     when (status_is receipt 0)
       (toast "Minting failed" error ;;
        emit (ConsoleError "receipt")) ;;
     when (status_is receipt 1)
       (toast (toastSuccess h) success ;;
        setStep complete ;;
        callOnComplete h))
    (fun error_ =>
       toast (parseError h error_ (toastError h)) error ;;
       emit (ConsoleError error_))
    (setTxPending false).

Definition initializeWrite (h : Hooks) : M unit :=
  if falsy (address h) then throw "No address found for current user"
  else
    let address := default "" (address h) in
    match claimIds h with
    | None => throw "No claim ids found for the current user"
    | Some claimIds =>
        setStep proofs ;;
        when (Nat.eqb (length claimIds) 0) hideModal ;;
        promises ← callVerifyFractionClaim h claimIds address;
        results ← await (promise_all promises);
        let claimIDs := claimIDs results in
        let units := unitAmounts results in
        let proofs := proofArrays results in
        emit (ConsoleLog "Unique Verified proofs") ;;
        emit (ConsoleLog "Ids") ;;
        emit (ConsoleLog "Units") ;;
        emit (ConsoleLog "Proofs") ;;
        setStep minting ;;
        mintAndWait h claimIDs units proofs
    end.

Definition write (h : Hooks) : M unit :=
  showModal ;;
  setStep initial ;;
  initializeWrite h.

Definition readOnly (h : Hooks) : bool :=
  isLoading h
  || match client h with None => true | Some c => readonly c end.

(** *** [useGetAllEligibility] *)

Record Row := mkRow {
  row_address : string;
  row_claimId : string;
  row_hidden : bool
}.

(** The eligibility table behind [supabase.from(SUPABASE_TABLE)]: its rows,
    or the error a query fails with. *)
Inductive Table :=
| Rows (rows : list Row)
| Unreachable (e : Error).

(** The [{ data, error }] a query resolves to. *)
Record Response := mkResponse {
  data : option (list Row);
  error_ : option Error
}.

Definition lower_ascii (c : ascii) : ascii :=
  let n := nat_of_ascii c in
  if (Nat.leb 65 n && Nat.leb n 90)%bool then ascii_of_nat (n + 32) else c.

(** [String.prototype.toLowerCase], on the ASCII range. *)
Fixpoint toLowerCase (s : string) : string :=
  match s with
  | EmptyString => EmptyString
  | String c s' => String (lower_ascii c) (toLowerCase s')
  end.

(** [.select("*").eq("address", a).eq("hidden", hidden)]: the matching rows,
    or a null [data] next to the error. *)
Definition select_eq_address_eq_hidden (t : Table) (a : string) (hidden : bool)
    : Response :=
  match t with
  | Rows rows =>
      {| data :=
           Some (List.filter
                   (fun x => String.eqb (row_address x) a
                             && Bool.eqb (row_hidden x) hidden)
                   rows);
         error_ := None |}
  | Unreachable e => {| data := None; error_ := Some e |}
  end.

(** The query function handed to [useQuery]. *)
Definition getAllEligibility (supabase : Table) (address : string)
    : M (list string) :=
  let r := select_eq_address_eq_hidden supabase (toLowerCase address) false in
  match error_ r with
  | Some e =>
      emit (ConsoleError "Supabase error:") ;;
      emit (ConsoleError e)
  | None => ret tt
  end ;;
  let claimIds := option_map (map (fun x => row_claimId x)) (data r) in
  ret (default [] claimIds).

(** [{ enabled: !!address, refetchInterval: 5000 }] *)
Definition enabled (address : string) : bool := negb (String.eqb address "").
Definition refetchInterval : Z := 5000.

(** *** Observing a run *)

Definition outcome {A} (r : Completion A * UI * list Effect) : Completion A :=
  fst (fst r).
Definition final {A} (r : Completion A * UI * list Effect) : UI :=
  snd (fst r).
Definition trace {A} (r : Completion A * UI * list Effect) : list Effect :=
  snd r.

(** What an effect does to the UI state: [setStep], [showModal], [hideModal]
    and [setTxPending] write it, every other effect leaves it alone. *)
Definition apply_effect (e : Effect) (ui : UI) : UI :=
  match e with
  | SetStep s =>
      {| txPending := txPending ui; step := Some s;
         modalVisible := modalVisible ui |}
  | ShowModal =>
      {| txPending := txPending ui; step := step ui; modalVisible := true |}
  | HideModal =>
      {| txPending := txPending ui; step := step ui; modalVisible := false |}
  | SetTxPending b =>
      {| txPending := b; step := step ui; modalVisible := modalVisible ui |}
  | _ => ui
  end.

(** The UI state after the effects of [t], started in [ui]. *)
Definition replay (t : list Effect) (ui : UI) : UI :=
  fold_left (fun ui e => apply_effect e ui) t ui.


(** Each effect of a trace, paired with the value [txPending] has in the UI
    state at the moment the effect happens. *)
Fixpoint observe (ui : UI) (t : list Effect) : list (Effect * bool) :=
  match t with
  | [] => []
  | e :: t' => (e, txPending ui) :: observe (apply_effect e ui) t'
  end.

Definition is_SetTxPending (e : Effect) : bool :=
  match e with SetTxPending _ => true | _ => false end.

(** The effects that come before the [try] statement: the modal, the steps
    up to [minting], the verifier calls and the console logs. *)
Definition preparatory (e : Effect) : bool :=
  match e with
  | ShowModal | HideModal | SetStep initial | SetStep proofs | SetStep minting
  | CallVerifyFractionClaim _ _ | ConsoleLog _ => true
  | _ => false
  end.

(** The effects of the [try] and [catch] blocks other than raising the flag:
    the contract call, the [waiting] step, the wait for the receipt, the
    notifications and error logs, the [complete] step and the completion
    callback. *)
Definition attempting (e : Effect) : bool :=
  match e with
  | CallBatchMint _ _ _ | CallWait _ | Toast _ _ | ConsoleError _
  | CallOnComplete | SetStep waiting | SetStep complete => true
  | _ => false
  end.

(** The effects of [initializeWrite] up to and including the [minting]
    step, and the UI they leave behind. *)
Definition verifying (ids : list string) (address : string) : list Effect :=
  SetStep proofs
  :: (if Nat.eqb (length ids) 0 then [HideModal] else [])
  ++ map (fun claimId => CallVerifyFractionClaim claimId address) ids.

Definition logging : list Effect :=
  [ConsoleLog "Unique Verified proofs"; ConsoleLog "Ids"; ConsoleLog "Units";
   ConsoleLog "Proofs"; SetStep minting].

Definition ui_at (s : Step) (ids : list string) (ui : UI) : UI :=
  {| txPending := txPending ui;
     step := Some s;
     modalVisible :=
       if Nat.eqb (length ids) 0 then false else modalVisible ui |}.

(** The effects of a successful receipt after the [complete] step: the
    call of [onComplete], if there is one, and what the [catch] block does
    when that call throws. *)
Definition completion (h : Hooks) : list Effect :=
  match onComplete h with
  | None => []
  | Some (Resolved _) => [CallOnComplete]
  | Some (Rejected e) =>
      [CallOnComplete; Toast (parseError h e (toastError h)) error;
       ConsoleError e]
  end.

Definition is_Toast (e : Effect) : bool :=
  match e with Toast _ _ => true | _ => false end.

Definition is_CallVerifyFractionClaim (e : Effect) : bool :=
  match e with CallVerifyFractionClaim _ _ => true | _ => false end.

Definition is_CallOnComplete (e : Effect) : bool :=
  match e with CallOnComplete => true | _ => false end.

Definition is_CallBatchMint (e : Effect) : bool :=
  match e with CallBatchMint _ _ _ => true | _ => false end.

(** *** Sample surroundings *)

Definition a_receipt (s : Z) : Receipt := {| status := Some s |}.

Definition a_tx (s : Z) : Tx := {| wait := fun _ => Resolved (a_receipt s) |}.

Definition a_client (s : Z) : Client :=
  {| batchMintClaimFractionsFromAllowlists := fun _ _ _ => Resolved (a_tx s);
     readonly := false |}.

Definition proof_1 : ClaimProof :=
  {| claimIDContract := "1"; units := 10; proof := ["0xaa"; "0xab"] |}.
Definition proof_2 : ClaimProof :=
  {| claimIDContract := "2"; units := 20; proof := ["0xbb"] |}.

(** The address [0xaa], eligible for [ids]; the verifier answers claim
    ["1"] with [proof_1] and any other claim with [proof_2]; the receipt
    has status [s]. *)
Definition some_hooks (ids : list string) (s : Z) : Hooks :=
  {| address := Some "0xaa";
     claimIds := Some ids;
     verifyFractionClaim := fun claimId _ =>
       Resolved (Single (Some (if String.eqb claimId "1" then proof_1
                               else proof_2)));
     parseError := fun _ fallback => fallback;
     client := Some (a_client s);
     isLoading := false;
     toastSuccess := "Your hypercert fraction has been minted";
     toastError := "Something went wrong while minting";
     onComplete := Some (Resolved tt) |}.

(** The same surroundings while the client is not there yet. *)
Definition hooks_without_client (ids : list string) : Hooks :=
  {| address := Some "0xaa";
     claimIds := Some ids;
     verifyFractionClaim := verifyFractionClaim (some_hooks ids 1);
     parseError := fun _ fallback => fallback;
     client := None;
     isLoading := true;
     toastSuccess := "Your hypercert fraction has been minted";
     toastError := "Something went wrong while minting";
     onComplete := Some (Resolved tt) |}.

(** Surroundings given by a verifier and a client. *)
Definition hooks_of (verify : string -> string -> Settled VerifyResult)
    (c : option Client) : Hooks :=
  {| address := Some "0xaa";
     claimIds := Some ["1"; "2"];
     verifyFractionClaim := verify;
     parseError := fun _ fallback => fallback;
     client := c;
     isLoading := false;
     toastSuccess := "Your hypercert fraction has been minted";
     toastError := "Something went wrong while minting";
     onComplete := Some (Resolved tt) |}.

(** A verifier that fails on claim ["2"]. *)
Definition a_failing_verifier (claimId address : string)
    : Settled VerifyResult :=
  if String.eqb claimId "2" then Rejected "No allowlist found"
  else Resolved (Single (Some proof_1)).

Definition a_verifier (claimId address : string) : Settled VerifyResult :=
  Resolved (Single (Some (if String.eqb claimId "1" then proof_1 else proof_2))).

(** Clients whose contract call is rejected, whose transaction fails while
    waiting, and whose receipt carries no status. *)
Definition a_rejecting_client : Client :=
  {| batchMintClaimFractionsFromAllowlists :=
       fun _ _ _ => Rejected "user rejected transaction";
     readonly := false |}.

Definition a_tx_lost : Tx := {| wait := fun _ => Rejected "timeout" |}.

Definition a_client_losing_tx : Client :=
  {| batchMintClaimFractionsFromAllowlists := fun _ _ _ => Resolved a_tx_lost;
     readonly := false |}.

Definition a_tx_without_status : Tx :=
  {| wait := fun _ => Resolved {| status := None |} |}.

Definition a_client_without_status : Client :=
  {| batchMintClaimFractionsFromAllowlists :=
       fun _ _ _ => Resolved a_tx_without_status;
     readonly := false |}.

Definition some_rows : list Row :=
  [ {| row_address := "0xaa"; row_claimId := "1"; row_hidden := false |};
    {| row_address := "0xaa"; row_claimId := "2"; row_hidden := true |};
    {| row_address := "0xab"; row_claimId := "3"; row_hidden := false |} ].

End MintFractionAllowlistBatch.

(** * Properties *)

(** ** [HyperboardNFT.sol] *)

Module HyperboardNFTFacts.
Import Solidity HyperboardNFT.

(** C9. Whatever the constructor is given, also a non-zero [walletImpl_]
    and [erc6551Registry_], it reverts with [ZeroAddress]: the guards read
    the state variables, which are still zero. No storage is ever
    produced by it. *)
Theorem constructor_always_reverts
    (name_ symbol_ subgraphEndpoint_ baseUri_ : string)
    (walletImpl_ erc6551Registry_ : address) :
  constructor name_ symbol_ subgraphEndpoint_ baseUri_ walletImpl_
    erc6551Registry_ = Revert ZeroAddress
  /\ forall s : State,
       constructor name_ symbol_ subgraphEndpoint_ baseUri_ walletImpl_
         erc6551Registry_ <> Ok s.
Proof.
  split.
  - reflexivity.
  - intros s H. discriminate H.
Qed.

Lemma constructor_always_reverts_witness :
  constructor "Hyperboard" "HB" "https://example.org/subgraph" "ipfs://board"
    0x3000 0x2000 = Revert ZeroAddress.
Proof.
  apply (proj1 (constructor_always_reverts "Hyperboard" "HB"
                  "https://example.org/subgraph" "ipfs://board" 0x3000 0x2000)).
Defined.

Lemma revert_if_ok (c : bool) (e : Error) (u : unit) :
  revert_if c e = Ok u -> c = false.
Proof. destruct c; [discriminate | reflexivity]. Qed.

(** The owner gate of [updateAllowListedCerts]. *)
Lemma updateAllowListedCerts_owner_gated (s s' : State) (sender : address)
    (tokenId : uint256) (certs : list address) (ids : list (list uint256)) :
  updateAllowListedCerts s sender tokenId certs ids = Ok s' ->
  ownerOf s tokenId = Ok sender.
Proof.
  unfold updateAllowListedCerts.
  destruct (ownerOf s tokenId) as [owner | e] eqn:Ho; [| discriminate].
  cbn. destruct (N.eqb_spec owner sender) as [-> | Hne]; [reflexivity |].
  discriminate.
Qed.

Lemma _setAllowlist_loop_counter (certs : list address) :
  forall (ids : list (list uint256)) (s : State),
    _counter (_setAllowlist_loop certs ids s) = _counter s.
Proof.
  induction certs as [| c certs IH]; intros [| l ids] s; try reflexivity.
  cbn [_setAllowlist_loop]. rewrite IH. reflexivity.
Qed.

(** The loop only writes entries keyed by the current counter. *)
Lemma _setAllowlist_loop_other (certs : list address) :
  forall (ids : list (list uint256)) (s : State) (tokenId : uint256)
         (cert : address),
    tokenId <> _counter s ->
    claimIds (_setAllowlist_loop certs ids s) !! (tokenId, cert)
    = claimIds s !! (tokenId, cert).
Proof.
  induction certs as [| c certs IH]; intros [| l ids] s tokenId cert Hne;
    try reflexivity.
  cbn [_setAllowlist_loop]. rewrite IH by exact Hne.
  cbn. apply lookup_insert_ne. intros Heq. apply Hne. congruence.
Qed.

(** An update of a token other than the one the counter points at leaves
    every claim-id list of that token as it was. *)
Lemma updateAllowListedCerts_claimIds_kept (s s' : State) (sender : address)
    (tokenId : uint256) (certs : list address) (ids : list (list uint256))
    (cert : address) :
  updateAllowListedCerts s sender tokenId certs ids = Ok s' ->
  tokenId <> _counter s ->
  getAllowListedClaimIds s' tokenId cert = getAllowListedClaimIds s tokenId cert.
Proof.
  unfold updateAllowListedCerts, _setAllowlist.
  destruct (ownerOf s tokenId) as [owner | e]; [| discriminate].
  cbn. destruct (negb (owner =? sender)); [discriminate |].
  cbn. destruct (negb _); [discriminate |].
  cbn. intros [= <-] Hne.
  unfold getAllowListedClaimIds, read.
  rewrite _setAllowlist_loop_other by exact Hne. reflexivity.
Qed.

(** C8. Token 0 is minted to [0xA11CE] with the list [[1]] for the
    certificate [0xCE27]; its owner then updates that list to [[2]]. The
    update succeeds, yet [getAllowListedClaimIds(0, 0xCE27)] still answers
    [[1]]: the list [[2]] was stored under token 1, where the counter
    points. *)
Theorem updateAllowListedCerts_writes_under_counter :
  exists s1 s2 : State,
    mint a_chain a_board 0xA11CE [0xCE27] [[1]] 0 = Ok (s1, 0)
    /\ updateAllowListedCerts s1 0xA11CE 0 [0xCE27] [[2]] = Ok s2
    /\ getAllowListedCerts s2 0 = [0xCE27]
    /\ getAllowListedClaimIds s2 0 0xCE27 = [1]
    /\ getAllowListedClaimIds s2 0 0xCE27 <> [2]
    /\ getAllowListedClaimIds s2 1 0xCE27 = [2].
Proof.
  eexists. eexists.
  split; [vm_compute; reflexivity |].
  split; [vm_compute; reflexivity |].
  repeat split; try (vm_compute; reflexivity).
  vm_compute. discriminate.
Qed.

(** *** [_setAllowlist] *)

(** The loop changes nothing but the claim-id lists. *)
Lemma _setAllowlist_loop_frame (certs : list address) :
  forall (ids : list (list uint256)) (s : State),
    _setAllowlist_loop certs ids s
    = set_claimIds (claimIds (_setAllowlist_loop certs ids s)) s.
Proof.
  induction certs as [| c certs IH]; intros [| l ids] s;
    try (destruct s; reflexivity).
  cbn [_setAllowlist_loop]. rewrite IH at 1. destruct s; reflexivity.
Qed.

(** A certificate that is not in the array keeps its list. *)
Lemma _setAllowlist_loop_absent (certs : list address) :
  forall (ids : list (list uint256)) (s : State) (tokenId : uint256)
         (cert : address),
    ~ List.In cert certs ->
    claimIds (_setAllowlist_loop certs ids s) !! (tokenId, cert)
    = claimIds s !! (tokenId, cert).
Proof.
  induction certs as [| c certs IH]; intros [| l ids] s tokenId cert Hnin;
    try reflexivity.
  cbn [_setAllowlist_loop]. rewrite IH by (intros H; apply Hnin; right; exact H).
  cbn. apply lookup_insert_ne. intros [= _ ->]. apply Hnin. left. reflexivity.
Qed.

Lemma last_at_absent (c : address) (certs : list address) (cert : address) :
  last_at (c :: certs) 0 cert -> ~ List.In cert certs.
Proof.
  intros [_ Hlast] Hin. apply In_nth_error in Hin. destruct Hin as [j Hj].
  apply (Hlast (S j)); [lia | exact Hj].
Qed.

Lemma last_at_tail (c : address) (certs : list address) (i : nat)
    (cert : address) :
  last_at (c :: certs) (S i) cert -> last_at certs i cert.
Proof.
  intros [Hnth Hlast]. split; [exact Hnth |].
  intros j Hj. apply (Hlast (S j)). lia.
Qed.

(** The loop stores, for each certificate, the list at the last index at
    which the certificate occurs, under the current counter. *)
Lemma _setAllowlist_loop_last (certs : list address) :
  forall (ids : list (list uint256)) (s : State) (i : nat) (cert : address)
         (l : list uint256),
    length certs = length ids ->
    last_at certs i cert ->
    nth_error ids i = Some l ->
    claimIds (_setAllowlist_loop certs ids s) !! (_counter s, cert) = Some l.
Proof.
  induction certs as [| c certs IH]; intros [| l0 ids] s i cert l Hlen Hlast Hl;
    try discriminate.
  - destruct Hlast as [Hnth _]. destruct i; discriminate.
  - cbn [_setAllowlist_loop]. destruct i as [| i].
    + destruct Hlast as [Hnth Hafter]. cbn in Hnth, Hl.
      injection Hnth as ->. injection Hl as ->.
      rewrite _setAllowlist_loop_absent.
      * cbn. apply lookup_insert_eq.
      * eapply last_at_absent. split; [reflexivity | exact Hafter].
    + apply last_at_tail in Hlast. cbn in Hl.
      apply (IH ids (set_claimIds (<[(_counter s, c) := l0]> (claimIds s)) s)
               i cert l); [cbn in Hlen; lia | exact Hlast | exact Hl].
Qed.

Lemma lengths_eqb (A B : Type) (l1 : list A) (l2 : list B) :
  negb (N.of_nat (length l1) =? N.of_nat (length l2)) = false
  <-> length l1 = length l2.
Proof.
  rewrite negb_false_iff, N.eqb_eq. split; [apply Nat2N.inj | congruence].
Qed.

(** What a successful [_setAllowlist] has done. *)
Lemma _setAllowlist_ok (tokenId : uint256) (certs : list address)
    (ids : list (list uint256)) (s s' : State) :
  _setAllowlist tokenId certs ids s = Ok s' ->
  length certs = length ids
  /\ s' = _setAllowlist_loop certs ids
            (set_allowlistedCerts (<[tokenId := certs]> (allowlistedCerts s)) s).
Proof.
  unfold _setAllowlist.
  destruct (negb (N.of_nat (length certs) =? N.of_nat (length ids))) eqn:Hlen;
    [discriminate |].
  cbn. intros [= <-]. split; [apply lengths_eqb; exact Hlen | reflexivity].
Qed.

(** *** [mint] *)

Lemma _setAllowlist_loop_rest (certs : list address)
    (ids : list (list uint256)) (s : State) :
  erc6551Registry (_setAllowlist_loop certs ids s) = erc6551Registry s
  /\ walletImpl (_setAllowlist_loop certs ids s) = walletImpl s
  /\ tokenWalletMapping (_setAllowlist_loop certs ids s) = tokenWalletMapping s
  /\ _owners (_setAllowlist_loop certs ids s) = _owners s
  /\ allowlistedCerts (_setAllowlist_loop certs ids s) = allowlistedCerts s.
Proof.
  rewrite (_setAllowlist_loop_frame certs ids s). repeat split.
Qed.

Lemma mint_ok (env : Env) (s s' : State) (to : address)
    (certs : list address) (ids : list (list uint256)) (salt tokenId : uint256) :
  mint env s to certs ids salt = Ok (s', tokenId) ->
  length certs = length ids
  /\ to <> address0
  /\ ~ minted s (_counter s)
  /\ tokenId = _counter s
  /\ exists wallet,
       createAccount env (erc6551Registry s) (walletImpl s) (chainid env)
         (this env) (_counter s) salt = Some wallet
       /\ s' = minted_storage s to certs ids wallet.
Proof.
  unfold mint, _mint, _setAllowlist, minted.
  destruct (negb (N.of_nat (length certs) =? N.of_nat (length ids))) eqn:Hlen;
    [discriminate |].
  cbn. destruct (N.eqb_spec to address0) as [| Hto]; [discriminate |].
  cbn. destruct (N.eqb_spec (read address0 (_owners s) (_counter s)) address0)
    as [Hfree |]; [| discriminate].
  cbn.
  destruct (_setAllowlist_loop_rest certs ids
              (set_allowlistedCerts (<[_counter s := certs]> (allowlistedCerts s))
                 (set_owners (<[_counter s := to]> (_owners s)) s)))
    as (-> & -> & -> & _ & _).
  rewrite _setAllowlist_loop_counter. cbn.
  destruct (createAccount env _ _ _ _ _ _) as [wallet |] eqn:Hw; [| discriminate].
  cbn. intros [= <- <-].
  repeat split; try assumption.
  - apply lengths_eqb. exact Hlen.
  - intros H. apply H. exact Hfree.
  - exists wallet. split; reflexivity.
Qed.

Lemma mint_run (env : Env) (s : State) (to : address) (certs : list address)
    (ids : list (list uint256)) (salt : uint256) (wallet : address) :
  length certs = length ids ->
  to <> address0 ->
  ~ minted s (_counter s) ->
  createAccount env (erc6551Registry s) (walletImpl s) (chainid env) (this env)
    (_counter s) salt = Some wallet ->
  mint env s to certs ids salt
  = Ok (minted_storage s to certs ids wallet, _counter s).
Proof.
  intros Hlen Hto Hfree Hw. unfold mint, _mint, _setAllowlist, minted in *.
  apply lengths_eqb in Hlen. rewrite Hlen. cbn.
  destruct (N.eqb_spec to address0) as [| _]; [contradiction |].
  cbn. destruct (N.eqb_spec (read address0 (_owners s) (_counter s)) address0)
    as [_ | Hne]; [| contradiction].
  cbn.
  destruct (_setAllowlist_loop_rest certs ids
              (set_allowlistedCerts (<[_counter s := certs]> (allowlistedCerts s))
                 (set_owners (<[_counter s := to]> (_owners s)) s)))
    as (-> & -> & -> & _ & _).
  rewrite _setAllowlist_loop_counter. cbn. rewrite Hw. reflexivity.
Qed.

(** X1. [mint] goes through exactly when the two arrays have the same
    length, the recipient is not the zero address, no token carries the id
    the counter points at, and the registry's [createAccount] does not
    revert. *)
Theorem mint_succeeds_iff (env : Env) (s : State) (to : address)
    (certs : list address) (ids : list (list uint256)) (salt : uint256) :
  (exists s' tokenId, mint env s to certs ids salt = Ok (s', tokenId))
  <-> length certs = length ids
      /\ to <> address0
      /\ ~ minted s (_counter s)
      /\ createAccount env (erc6551Registry s) (walletImpl s) (chainid env)
           (this env) (_counter s) salt <> None.
Proof.
  split.
  - intros (s' & tokenId & Hmint).
    destruct (mint_ok _ _ _ _ _ _ _ _ Hmint)
      as (Hlen & Hto & Hfree & _ & wallet & Hw & _).
    repeat split; try assumption. congruence.
  - intros (Hlen & Hto & Hfree & Hw).
    destruct (createAccount env _ _ _ _ _ _) as [wallet |] eqn:Hw';
      [| contradiction].
    eexists. eexists. apply (mint_run env s to certs ids salt wallet);
      assumption.
Qed.

Lemma not_minted_in_a_board (tokenId : uint256) : ~ minted a_board tokenId.
Proof. intros H. apply H. reflexivity. Qed.

Lemma mint_succeeds_iff_witness :
  exists s' tokenId,
    mint a_chain a_board 0xA11CE [0xCE27] [[1]] 0 = Ok (s', tokenId).
Proof.
  apply (proj2 (mint_succeeds_iff a_chain a_board 0xA11CE [0xCE27] [[1]] 0)).
  split; [reflexivity |].
  split; [discriminate |].
  split; [apply not_minted_in_a_board | discriminate].
Defined.

(** X2. A successful [mint] returns the old counter as the token id, moves
    the counter on by one, makes the recipient the owner of the token,
    stores the certificate array under the token, and records the wallet
    that the registry created for the token. *)
Theorem mint_result (env : Env) (s s' : State) (to : address)
    (certs : list address) (ids : list (list uint256)) (salt tokenId : uint256) :
  mint env s to certs ids salt = Ok (s', tokenId) ->
  tokenId = _counter s
  /\ _counter s' = increment (_counter s)
  /\ ownerOf s' tokenId = Ok to
  /\ getAllowListedCerts s' tokenId = certs
  /\ createAccount env (erc6551Registry s) (walletImpl s) (chainid env)
       (this env) tokenId salt
     = Some (read address0 (tokenWalletMapping s') tokenId).
Proof.
  intros Hmint.
  destruct (mint_ok _ _ _ _ _ _ _ _ Hmint)
    as (Hlen & Hto & Hfree & -> & wallet & Hw & ->).
  unfold minted_storage, ownerOf, getAllowListedCerts, read. cbn.
  destruct (_setAllowlist_loop_rest certs ids
              (set_allowlistedCerts (<[_counter s := certs]> (allowlistedCerts s))
                 (set_owners (<[_counter s := to]> (_owners s)) s)))
    as (_ & _ & _ & -> & ->).
  cbn. rewrite !lookup_insert_eq. cbn.
  destruct (N.eqb_spec to address0) as [| _]; [contradiction |].
  repeat split. exact Hw.
Qed.

Lemma mint_result_witness :
  0 = _counter a_board
  /\ _counter a_board_minted = increment (_counter a_board)
  /\ ownerOf a_board_minted 0 = Ok 0xA11CE
  /\ getAllowListedCerts a_board_minted 0 = [0xCE27]
  /\ createAccount a_chain (erc6551Registry a_board) (walletImpl a_board)
       (chainid a_chain) (this a_chain) 0 0
     = Some (read address0 (tokenWalletMapping a_board_minted) 0).
Proof.
  apply (mint_result a_chain a_board a_board_minted 0xA11CE [0xCE27] [[1]] 0 0).
  vm_compute. reflexivity.
Defined.

(** X3. After a successful [mint], [getAllowListedClaimIds] of the new token
    answers, for each certificate of the array, the list given at the last
    index at which that certificate occurs. *)
Theorem mint_stores_claim_ids (env : Env) (s s' : State) (to : address)
    (certs : list address) (ids : list (list uint256)) (salt tokenId : uint256)
    (i : nat) (cert : address) (l : list uint256) :
  mint env s to certs ids salt = Ok (s', tokenId) ->
  last_at certs i cert ->
  nth_error ids i = Some l ->
  getAllowListedClaimIds s' tokenId cert = l.
Proof.
  intros Hmint Hlast Hl.
  destruct (mint_ok _ _ _ _ _ _ _ _ Hmint)
    as (Hlen & Hto & Hfree & -> & wallet & Hw & ->).
  unfold minted_storage, getAllowListedClaimIds, read. cbn.
  rewrite (_setAllowlist_loop_last certs ids
             (set_allowlistedCerts (<[_counter s := certs]> (allowlistedCerts s))
                (set_owners (<[_counter s := to]> (_owners s)) s))
             i cert l Hlen Hlast Hl).
  reflexivity.
Qed.

Lemma last_at_singleton (cert : address) : last_at [cert] 0 cert.
Proof.
  split; [reflexivity |].
  intros [| [| j]] Hj; [lia | discriminate | discriminate].
Qed.

Lemma mint_stores_claim_ids_witness :
  getAllowListedClaimIds a_board_minted 0 0xCE27 = [1].
Proof.
  apply (mint_stores_claim_ids a_chain a_board a_board_minted 0xA11CE [0xCE27]
           [[1]] 0 0 0%nat 0xCE27 [1]).
  - vm_compute. reflexivity.
  - apply last_at_singleton.
  - reflexivity.
Defined.

Example mint_last_list_wins :
  exists s',
    mint a_chain a_board 0xA11CE [0xCE27; 0xCE27] [[1]; [2]] 0 = Ok (s', 0)
    /\ getAllowListedClaimIds s' 0 0xCE27 = [2].
Proof. eexists. split; vm_compute; reflexivity. Qed.

(** X4. A successful [mint] leaves every other token as it was: its owner,
    its certificate array, its claim-id lists and its wallet. *)
Theorem mint_keeps_other_tokens (env : Env) (s s' : State) (to : address)
    (certs : list address) (ids : list (list uint256)) (salt tokenId : uint256)
    (other : uint256) :
  mint env s to certs ids salt = Ok (s', tokenId) ->
  other <> tokenId ->
  read address0 (_owners s') other = read address0 (_owners s) other
  /\ getAllowListedCerts s' other = getAllowListedCerts s other
  /\ (forall cert,
        getAllowListedClaimIds s' other cert
        = getAllowListedClaimIds s other cert)
  /\ read address0 (tokenWalletMapping s') other
     = read address0 (tokenWalletMapping s) other.
Proof.
  intros Hmint Hother.
  destruct (mint_ok _ _ _ _ _ _ _ _ Hmint)
    as (Hlen & Hto & Hfree & -> & wallet & Hw & ->).
  unfold minted_storage, getAllowListedCerts, getAllowListedClaimIds, read. cbn.
  destruct (_setAllowlist_loop_rest certs ids
              (set_allowlistedCerts (<[_counter s := certs]> (allowlistedCerts s))
                 (set_owners (<[_counter s := to]> (_owners s)) s)))
    as (_ & _ & _ & -> & ->).
  cbn. rewrite !lookup_insert_ne by congruence.
  repeat split. intros cert.
  rewrite _setAllowlist_loop_other by exact Hother. reflexivity.
Qed.

Lemma mint_keeps_other_tokens_witness :
  read address0 (_owners a_board_minted_again) 0
  = read address0 (_owners a_board_updated) 0
  /\ getAllowListedCerts a_board_minted_again 0
     = getAllowListedCerts a_board_updated 0
  /\ (forall cert,
        getAllowListedClaimIds a_board_minted_again 0 cert
        = getAllowListedClaimIds a_board_updated 0 cert)
  /\ read address0 (tokenWalletMapping a_board_minted_again) 0
     = read address0 (tokenWalletMapping a_board_updated) 0.
Proof.
  apply (mint_keeps_other_tokens a_chain a_board_updated a_board_minted_again
           0xB0B [0xFEED] [[3]] 0 1 0).
  - vm_compute. reflexivity.
  - discriminate.
Defined.

(** *** [updateAllowListedCerts] *)

Lemma updateAllowListedCerts_ok (s s' : State) (sender : address)
    (tokenId : uint256) (certs : list address) (ids : list (list uint256)) :
  updateAllowListedCerts s sender tokenId certs ids = Ok s' ->
  minted s tokenId
  /\ read address0 (_owners s) tokenId = sender
  /\ length certs = length ids
  /\ s' = _setAllowlist_loop certs ids
            (set_allowlistedCerts (<[tokenId := certs]> (allowlistedCerts s)) s).
Proof.
  unfold updateAllowListedCerts, ownerOf, minted.
  destruct (N.eqb_spec (read address0 (_owners s) tokenId) address0)
    as [| Hminted]; [discriminate |].
  cbn. destruct (N.eqb_spec (read address0 (_owners s) tokenId) sender)
    as [Howner |]; [| discriminate].
  cbn. intros Hset. destruct (_setAllowlist_ok _ _ _ _ _ Hset) as [Hlen ->].
  repeat split; assumption.
Qed.

(** X5. [updateAllowListedCerts] reverts with the ERC721 error for a token
    that was never minted, with [NotOwner] when the caller is not the
    token's owner, and with [ArrayLengthMismatch] when the owner passes
    arrays of different lengths; it goes through in exactly the remaining
    case. *)
Theorem updateAllowListedCerts_outcome (s : State) (sender : address)
    (tokenId : uint256) (certs : list address) (ids : list (list uint256)) :
  (~ minted s tokenId ->
   updateAllowListedCerts s sender tokenId certs ids
   = Revert ERC721InvalidTokenId)
  /\ (minted s tokenId ->
      read address0 (_owners s) tokenId <> sender ->
      updateAllowListedCerts s sender tokenId certs ids = Revert NotOwner)
  /\ (minted s tokenId ->
      read address0 (_owners s) tokenId = sender ->
      length certs <> length ids ->
      updateAllowListedCerts s sender tokenId certs ids
      = Revert ArrayLengthMismatch)
  /\ ((exists s', updateAllowListedCerts s sender tokenId certs ids = Ok s')
      <-> minted s tokenId
          /\ read address0 (_owners s) tokenId = sender
          /\ length certs = length ids).
Proof.
  unfold updateAllowListedCerts, ownerOf, _setAllowlist, minted.
  destruct (N.eqb_spec (read address0 (_owners s) tokenId) address0)
    as [Hzero | Hminted]; cbn.
  { split; [reflexivity |]. split; [tauto |]. split; [tauto |].
    split; [intros [s' Hok]; discriminate | tauto]. }
  split; [tauto |].
  destruct (N.eqb_spec (read address0 (_owners s) tokenId) sender)
    as [Howner | Hother]; cbn.
  - split; [tauto |].
    destruct (negb (N.of_nat (length certs) =? N.of_nat (length ids)))
      eqn:Hlen; cbn.
    + assert (Hne : length certs <> length ids).
      { intros Heq. apply lengths_eqb in Heq. congruence. }
      split; [reflexivity |].
      split; [intros [s' Hok]; discriminate | tauto].
    + apply lengths_eqb in Hlen. split; [tauto |].
      split; [tauto |]. intros _. eexists. reflexivity.
  - split; [reflexivity |]. split; [tauto |].
    split; [intros [s' Hok]; discriminate | tauto].
Qed.

Lemma updateAllowListedCerts_outcome_witness :
  updateAllowListedCerts a_board_minted 0xB0B 0 [0xCE27] [[2]] = Revert NotOwner.
Proof.
  apply (proj1 (proj2 (updateAllowListedCerts_outcome a_board_minted 0xB0B 0
                         [0xCE27] [[2]]))).
  - vm_compute. discriminate.
  - vm_compute. discriminate.
Defined.

(** What a successful [updateAllowListedCerts] has written. *)
Lemma updateAllowListedCerts_effect (s s' : State) (sender : address)
    (tokenId : uint256) (certs : list address) (ids : list (list uint256)) :
  updateAllowListedCerts s sender tokenId certs ids = Ok s' ->
  getAllowListedCerts s' tokenId = certs
  /\ (forall other, other <> tokenId ->
        getAllowListedCerts s' other = getAllowListedCerts s other)
  /\ (forall i cert l,
        last_at certs i cert -> nth_error ids i = Some l ->
        getAllowListedClaimIds s' (_counter s) cert = l)
  /\ _counter s' = _counter s
  /\ _owners s' = _owners s
  /\ tokenWalletMapping s' = tokenWalletMapping s.
Proof.
  intros Hup.
  destruct (updateAllowListedCerts_ok _ _ _ _ _ _ Hup)
    as (Hminted & Howner & Hlen & ->).
  destruct (_setAllowlist_loop_rest certs ids
              (set_allowlistedCerts (<[tokenId := certs]> (allowlistedCerts s))
                 s)) as (_ & _ & Hw & Ho & Hc).
  unfold getAllowListedCerts, getAllowListedClaimIds, read.
  rewrite Hw, Ho, Hc, _setAllowlist_loop_counter. cbn.
  rewrite lookup_insert_eq. repeat split.
  - intros other Hother. rewrite lookup_insert_ne by congruence. reflexivity.
  - intros i cert l Hlast Hl.
    rewrite (_setAllowlist_loop_last certs ids
               (set_allowlistedCerts
                  (<[tokenId := certs]> (allowlistedCerts s)) s)
               i cert l Hlen Hlast Hl).
    reflexivity.
Qed.

(** X6. A successful [updateAllowListedCerts] stores the certificate array
    under the token it was called for, and the claim-id lists under the
    token id the counter points at: there, each certificate of the array
    gets the list given at its last index. The counter, the owners and the
    wallets stay as they were, and so do the certificate arrays of the
    other tokens. *)
Theorem updateAllowListedCerts_result (s s' : State) (sender : address)
    (tokenId : uint256) (certs : list address) (ids : list (list uint256)) :
  updateAllowListedCerts s sender tokenId certs ids = Ok s' ->
  getAllowListedCerts s' tokenId = certs
  /\ (forall other, other <> tokenId ->
        getAllowListedCerts s' other = getAllowListedCerts s other)
  /\ (forall i cert l,
        last_at certs i cert -> nth_error ids i = Some l ->
        getAllowListedClaimIds s' (_counter s) cert = l)
  /\ _counter s' = _counter s
  /\ _owners s' = _owners s
  /\ tokenWalletMapping s' = tokenWalletMapping s.
Proof. apply updateAllowListedCerts_effect. Qed.

Lemma updateAllowListedCerts_result_witness :
  getAllowListedCerts a_board_updated 0 = [0xCE27]
  /\ getAllowListedClaimIds a_board_updated (_counter a_board_minted) 0xCE27
     = [2].
Proof.
  destruct (updateAllowListedCerts_result a_board_minted a_board_updated
              0xA11CE 0 [0xCE27] [[2]])
    as (Hcerts & _ & Hids & _).
  - vm_compute. reflexivity.
  - split; [exact Hcerts |].
    apply (Hids 0%nat 0xCE27 [2]); [apply last_at_singleton | reflexivity].
Defined.

(** *** Token ids and the counter *)

(** X7. As long as the counter does not wrap around, [mint] keeps every
    minted token id below the counter, and so does
    [updateAllowListedCerts]. *)
Theorem minted_below_counter_kept (s : State) :
  minted_below_counter s ->
  (forall env to certs ids salt s' tokenId,
      mint env s to certs ids salt = Ok (s', tokenId) ->
      _counter s + 1 < uint256_modulus ->
      minted_below_counter s')
  /\ (forall sender tokenId certs ids s',
        updateAllowListedCerts s sender tokenId certs ids = Ok s' ->
        minted_below_counter s').
Proof.
  intros Hinv. split.
  - intros env to certs ids salt s' tokenId Hmint Hroom t Ht.
    destruct (mint_ok _ _ _ _ _ _ _ _ Hmint)
      as (_ & _ & _ & _ & wallet & _ & ->).
    unfold minted, minted_storage, read in *. cbn in *.
    destruct (_setAllowlist_loop_rest certs ids
                (set_allowlistedCerts
                   (<[_counter s := certs]> (allowlistedCerts s))
                   (set_owners (<[_counter s := to]> (_owners s)) s)))
      as (_ & _ & _ & Ho & _).
    rewrite Ho in Ht. cbn in Ht.
    unfold increment. rewrite N.mod_small by exact Hroom.
    destruct (N.eq_dec t (_counter s)) as [-> | Hne]; [lia |].
    rewrite lookup_insert_ne in Ht by congruence.
    specialize (Hinv t Ht). lia.
  - intros sender tokenId certs ids s' Hup t Ht.
    destruct (updateAllowListedCerts_effect _ _ _ _ _ _ Hup)
      as (_ & _ & _ & Hc & Ho & _).
    unfold minted in Ht. rewrite Ho in Ht. rewrite Hc. apply Hinv. exact Ht.
Qed.

Lemma minted_below_counter_a_board : minted_below_counter a_board.
Proof. intros t Ht. exfalso. apply (not_minted_in_a_board t Ht). Qed.

Lemma minted_below_counter_a_board_minted : minted_below_counter a_board_minted.
Proof.
  intros t Ht. destruct (N.eq_dec t 0) as [-> | Hne]; [reflexivity |].
  exfalso. apply Ht. unfold read. cbn. rewrite lookup_insert_ne by congruence.
  reflexivity.
Qed.

Lemma minted_below_counter_kept_witness : minted_below_counter a_board_minted.
Proof.
  apply (proj1 (minted_below_counter_kept a_board minted_below_counter_a_board)
           a_chain 0xA11CE [0xCE27] [[1]] 0 a_board_minted 0).
  - vm_compute. reflexivity.
  - reflexivity.
Defined.

(** X8. Where every minted token id is below the counter, a successful
    [updateAllowListedCerts] changes no claim-id list of any minted token:
    what [getAllowListedClaimIds] answered for a minted token before the
    update it answers after it, the updated token included. *)
Theorem updateAllowListedCerts_keeps_minted_lists (s s' : State)
    (sender : address) (tokenId : uint256) (certs : list address)
    (ids : list (list uint256)) (t : uint256) (cert : address) :
  minted_below_counter s ->
  updateAllowListedCerts s sender tokenId certs ids = Ok s' ->
  minted s t ->
  getAllowListedClaimIds s' t cert = getAllowListedClaimIds s t cert.
Proof.
  intros Hinv Hup Ht.
  destruct (updateAllowListedCerts_ok _ _ _ _ _ _ Hup) as (_ & _ & _ & ->).
  unfold getAllowListedClaimIds, read.
  rewrite _setAllowlist_loop_other; [reflexivity |].
  cbn. specialize (Hinv t Ht). lia.
Qed.

Lemma updateAllowListedCerts_keeps_minted_lists_witness :
  getAllowListedClaimIds a_board_updated 0 0xCE27
  = getAllowListedClaimIds a_board_minted 0 0xCE27.
Proof.
  apply (updateAllowListedCerts_keeps_minted_lists a_board_minted
           a_board_updated 0xA11CE 0 [0xCE27] [[2]] 0 0xCE27).
  - exact minted_below_counter_a_board_minted.
  - vm_compute. reflexivity.
  - vm_compute. discriminate.
Defined.

(** X9. The lists an update has written surface in the token minted next:
    for a certificate that the next [mint] does not list, the new token
    answers with the list the earlier update of another token gave for
    it. *)
Theorem update_surfaces_in_next_mint (env : Env) (s s1 s2 : State)
    (sender : address) (tokenId : uint256) (certs : list address)
    (ids : list (list uint256)) (to : address) (certs' : list address)
    (ids' : list (list uint256)) (salt newId : uint256) (i : nat)
    (cert : address) (l : list uint256) :
  updateAllowListedCerts s sender tokenId certs ids = Ok s1 ->
  mint env s1 to certs' ids' salt = Ok (s2, newId) ->
  last_at certs i cert ->
  nth_error ids i = Some l ->
  ~ List.In cert certs' ->
  getAllowListedClaimIds s2 newId cert = l.
Proof.
  intros Hup Hmint Hlast Hl Hnin.
  destruct (updateAllowListedCerts_effect _ _ _ _ _ _ Hup)
    as (_ & _ & Hids & Hc & _).
  specialize (Hids i cert l Hlast Hl).
  destruct (mint_ok _ _ _ _ _ _ _ _ Hmint)
    as (_ & _ & _ & -> & wallet & _ & ->).
  unfold minted_storage, getAllowListedClaimIds, read in *. cbn.
  rewrite _setAllowlist_loop_absent by exact Hnin. cbn.
  rewrite Hc. exact Hids.
Qed.

Lemma update_surfaces_in_next_mint_witness :
  getAllowListedClaimIds a_board_minted_again 1 0xCE27 = [2].
Proof.
  apply (update_surfaces_in_next_mint a_chain a_board_minted a_board_updated
           a_board_minted_again 0xA11CE 0 [0xCE27] [[2]] 0xB0B [0xFEED] [[3]]
           0 1 0%nat 0xCE27 [2]).
  - vm_compute. reflexivity.
  - vm_compute. reflexivity.
  - apply last_at_singleton.
  - reflexivity.
  - intros [H | []]. discriminate H.
Defined.

End HyperboardNFTFacts.

(** ** The consent-based [Hyperboard] contract *)

Module HyperboardFacts.
Import Solidity Hyperboard.

Section Consent.
Variable env : Env.
Variables (s : State) (sender : address).
Variables (tokenId_ claimId_ : uint256) (signer : address).
Variables (r s_ : bytes32) (v : uint8).

Let recovered : option address :=
  ECDSA_recover env (getDigestForConsent env tokenId_ claimId_) v r s_.
Let call : Result (State * list Event) :=
  consentForHyperboardWithSignature env s sender tokenId_ claimId_ signer
    r s_ v.

(** A recovered address other than [signer] is rejected. *)
Lemma mismatched_signer_reverts (a : address) :
  recovered = Some a -> a <> signer -> call = Revert InvalidSigner.
Proof.
  subst recovered call. unfold consentForHyperboardWithSignature,
    getDigestForConsent.
  intros -> Hne. cbn.
  destruct (N.eqb_spec a signer) as [-> | _]; [contradiction | reflexivity].
Qed.

(** What a successful call has checked and written. *)
Lemma consent_success (s' : State) (evs : list Event) :
  call = Ok (s', evs) ->
  recovered = Some signer
  /\ minter_ownerOf env (hypercertMinter s) claimId_ = Some signer
  /\ consented s' tokenId_ = consented s tokenId_ ++ [claimId_]
  /\ (forall t, t <> tokenId_ -> consented s' t = consented s t)
  /\ evs = [GotConsent tokenId_ claimId_ sender].
Proof.
  subst recovered call. unfold consentForHyperboardWithSignature,
    getDigestForConsent, _consentForHyperboard.
  destruct (ECDSA_recover _ _ _ _ _) as [a |]; [| discriminate].
  cbn. destruct (N.eqb_spec a signer) as [-> | _]; [| discriminate].
  cbn. destruct (minter_ownerOf _ _ _) as [o |]; [| discriminate].
  cbn. destruct (N.eqb_spec o signer) as [-> | _]; [| discriminate].
  cbn. intros [= <- <-].
  repeat split.
  - unfold consented at 1, read. cbn. rewrite lookup_insert_eq. reflexivity.
  - intros t Hne. unfold consented at 1, read. cbn.
    rewrite lookup_insert_ne by congruence. reflexivity.
Qed.

(** C7. [consentForHyperboardWithSignature] reverts with [InvalidSigner]
    whenever the address recovered from the EIP-712 digest of
    [(tokenId_, claimId_)] under [(v, r, s_)] differs from [signer]; and
    the consented list of a board changes only when the recovered
    address is [signer] and [hypercertMinter.ownerOf(claimId_)] is
    [signer], in which case [claimId_] is appended to the list of
    [tokenId_]. *)
Theorem consentForHyperboardWithSignature_checks_signer :
  (forall a, recovered = Some a -> a <> signer ->
             call = Revert InvalidSigner)
  /\ (forall t, consented (state_after s call) t <> consented s t ->
        recovered = Some signer
        /\ minter_ownerOf env (hypercertMinter s) claimId_ = Some signer
        /\ t = tokenId_
        /\ consented (state_after s call) t = consented s t ++ [claimId_])
  /\ (recovered = Some signer ->
      minter_ownerOf env (hypercertMinter s) claimId_ = Some signer ->
      consented (state_after s call) tokenId_
      = consented s tokenId_ ++ [claimId_]).
Proof.
  split; [exact mismatched_signer_reverts |].
  split.
  - intros t Hchg.
    destruct call as [[s' evs] | e] eqn:Hc; cbn in Hchg; [| congruence].
    destruct (consent_success s' evs Hc) as (Hr & Ho & Happ & Hoth & _).
    destruct (N.eq_dec t tokenId_) as [-> | Hne].
    + cbn. auto.
    + exfalso. apply Hchg. apply Hoth. exact Hne.
  - intros Hr Ho.
    destruct call as [[s' evs] | e] eqn:Hc.
    + cbn. apply (consent_success s' evs Hc).
    + exfalso. revert Hc. subst recovered call.
      unfold consentForHyperboardWithSignature, getDigestForConsent,
        _consentForHyperboard in *.
      rewrite Hr. cbn. rewrite N.eqb_refl. cbn. rewrite Ho. cbn.
      rewrite N.eqb_refl. cbn. discriminate.
Qed.

End Consent.

Lemma consentForHyperboardWithSignature_checks_signer_witness :
  consentForHyperboardWithSignature (a_chain 0xB0B) a_board 0xB0B 0 7
    0xA11CE 11 12 27 = Revert InvalidSigner
  /\ consented
       (state_after a_board
          (consentForHyperboardWithSignature (a_chain 0xA11CE) a_board 0xB0B
             0 7 0xA11CE 11 12 27)) 0
     = consented a_board 0 ++ [7].
Proof.
  split.
  - apply (proj1 (consentForHyperboardWithSignature_checks_signer
                    (a_chain 0xB0B) a_board 0xB0B 0 7 0xA11CE 11 12 27)
             0xB0B).
    + reflexivity.
    + discriminate.
  - apply (proj2 (proj2 (consentForHyperboardWithSignature_checks_signer
                    (a_chain 0xA11CE) a_board 0xB0B 0 7 0xA11CE 11 12 27))).
    + reflexivity.
    + reflexivity.
Defined.

(** C10. Whatever address [setHypercertContract] is called with, and by
    whomever, the storage after the call is the storage before it, the
    stored [hypercertMinter] included; a call by the owner goes through
    and emits [HypercertMinterUpdated] with the address that was stored
    already. *)
Theorem setHypercertContract_keeps_storage (s : State) (sender : address)
    (hypercertMinter_ : address) :
  state_after s (setHypercertContract s sender hypercertMinter_) = s
  /\ hypercertMinter
       (state_after s (setHypercertContract s sender hypercertMinter_))
     = hypercertMinter s
  /\ (sender = _owner s ->
      setHypercertContract s sender hypercertMinter_
      = Ok (s, [HypercertMinterUpdated (hypercertMinter s)])).
Proof.
  unfold setHypercertContract, onlyOwner.
  destruct (N.eqb_spec (_owner s) sender) as [Heq | Hne]; cbn.
  - repeat split.
  - repeat split. intros Heq. congruence.
Qed.

Lemma setHypercertContract_keeps_storage_witness :
  setHypercertContract a_board 0xDE9107 0x5000
  = Ok (a_board, [HypercertMinterUpdated 0x4000]).
Proof.
  apply (proj2 (proj2 (setHypercertContract_keeps_storage a_board 0xDE9107
                         0x5000))).
  reflexivity.
Defined.

(** The sibling setter does write its argument. *)
Example setBaseUri_writes :
  baseUri (state_after a_board (setBaseUri a_board 0xDE9107 "ipfs://x"))
  = "ipfs://x".
Proof. reflexivity. Qed.

(** *** Consent *)

(** The storage after [claimId_] has been appended to the consented list of
    [tokenId_]. *)
Lemma _consentForHyperboard_run (env : Env) (s : State) (sender : address)
    (tokenId_ claimId_ : uint256) (owner_ : address) :
  minter_ownerOf env (hypercertMinter s) claimId_ = Some owner_ ->
  _consentForHyperboard env s sender tokenId_ claimId_ owner_
  = Ok (set_consentBasedCertsMapping
          (<[tokenId_ := consented s tokenId_ ++ [claimId_]]>
             (consentBasedCertsMapping s)) s,
        [GotConsent tokenId_ claimId_ sender]).
Proof.
  intros Ho. unfold _consentForHyperboard. rewrite Ho. cbn.
  rewrite N.eqb_refl. reflexivity.
Qed.

Lemma _consentForHyperboard_ok (env : Env) (s s' : State) (sender : address)
    (tokenId_ claimId_ : uint256) (owner_ : address) (evs : list Event) :
  _consentForHyperboard env s sender tokenId_ claimId_ owner_ = Ok (s', evs) ->
  minter_ownerOf env (hypercertMinter s) claimId_ = Some owner_.
Proof.
  unfold _consentForHyperboard.
  destruct (minter_ownerOf env (hypercertMinter s) claimId_) as [o |];
    [| discriminate].
  cbn. destruct (N.eqb_spec o owner_) as [-> | _]; [reflexivity | discriminate].
Qed.

Lemma consented_after (s : State) (tokenId_ claimId_ t : uint256) :
  consented
    (set_consentBasedCertsMapping
       (<[tokenId_ := consented s tokenId_ ++ [claimId_]]>
          (consentBasedCertsMapping s)) s) t
  = if decide (tokenId_ = t) then consented s t ++ [claimId_]
    else consented s t.
Proof.
  unfold consented at 1, read. cbn. rewrite lookup_insert.
  repeat case_decide; subst; try reflexivity; contradiction.
Qed.

(** X10. [consentForHyperboard] goes through exactly when the minter names
    the caller as owner of the claim; whether the board [tokenId_] exists
    plays no part. It then appends the claim id to the consented list of
    the board, touches nothing else, and emits [GotConsent] with the
    caller. *)
Theorem consentForHyperboard_outcome (env : Env) (s : State)
    (sender : address) (tokenId_ claimId_ : uint256) :
  ((exists s' evs,
       consentForHyperboard env s sender tokenId_ claimId_ = Ok (s', evs))
   <-> minter_ownerOf env (hypercertMinter s) claimId_ = Some sender)
  /\ (minter_ownerOf env (hypercertMinter s) claimId_ = Some sender ->
      consentForHyperboard env s sender tokenId_ claimId_
      = Ok (set_consentBasedCertsMapping
              (<[tokenId_ := consented s tokenId_ ++ [claimId_]]>
                 (consentBasedCertsMapping s)) s,
            [GotConsent tokenId_ claimId_ sender])).
Proof.
  unfold consentForHyperboard. split; [split |].
  - intros (s' & evs & H). exact (_consentForHyperboard_ok _ _ _ _ _ _ _ _ H).
  - intros Ho. eexists. eexists. apply _consentForHyperboard_run. exact Ho.
  - apply _consentForHyperboard_run.
Qed.

Lemma consentForHyperboard_outcome_witness :
  consentForHyperboard (a_chain 0xB0B) a_board 0xA11CE 5 7
  = Ok (set_consentBasedCertsMapping
          (<[5 := consented a_board 5 ++ [7]]>
             (consentBasedCertsMapping a_board)) a_board,
        [GotConsent 5 7 0xA11CE]).
Proof.
  apply (proj2 (consentForHyperboard_outcome (a_chain 0xB0B) a_board 0xA11CE
                  5 7)).
  reflexivity.
Defined.

Lemma consentForHyperboardWithSignature_run (env : Env) (s : State)
    (sender : address) (tokenId_ claimId_ : uint256) (signer : address)
    (r s_ : bytes32) (v : uint8) :
  ECDSA_recover env (getDigestForConsent env tokenId_ claimId_) v r s_
  = Some signer ->
  minter_ownerOf env (hypercertMinter s) claimId_ = Some signer ->
  consentForHyperboardWithSignature env s sender tokenId_ claimId_ signer r s_ v
  = Ok (set_consentBasedCertsMapping
          (<[tokenId_ := consented s tokenId_ ++ [claimId_]]>
             (consentBasedCertsMapping s)) s,
        [GotConsent tokenId_ claimId_ sender]).
Proof.
  intros Hr Ho. unfold consentForHyperboardWithSignature, getDigestForConsent in *.
  rewrite Hr. cbn. rewrite N.eqb_refl. cbn.
  apply _consentForHyperboard_run. exact Ho.
Qed.

(** X11. A consent signature can be used again: when
    [consentForHyperboardWithSignature] has gone through, the same call on
    the resulting storage goes through as well, and the claim id then
    stands twice at the end of the board's consented list. *)
Theorem consent_signature_replays (env : Env) (s s1 : State)
    (sender : address) (tokenId_ claimId_ : uint256) (signer : address)
    (r s_ : bytes32) (v : uint8) (evs : list Event) :
  consentForHyperboardWithSignature env s sender tokenId_ claimId_ signer r s_ v
  = Ok (s1, evs) ->
  exists s2,
    consentForHyperboardWithSignature env s1 sender tokenId_ claimId_ signer
      r s_ v = Ok (s2, evs)
    /\ consented s2 tokenId_ = consented s tokenId_ ++ [claimId_; claimId_].
Proof.
  intros Hcall.
  destruct (consent_success env s sender tokenId_ claimId_ signer r s_ v s1 evs
              Hcall) as (Hr & Ho & _ & _ & ->).
  rewrite (consentForHyperboardWithSignature_run env s sender tokenId_ claimId_
             signer r s_ v Hr Ho) in Hcall.
  injection Hcall as <-.
  eexists. split.
  - apply consentForHyperboardWithSignature_run; [exact Hr | exact Ho].
  - rewrite !consented_after. repeat case_decide; try contradiction.
    rewrite <- app_assoc. reflexivity.
Qed.

Lemma consent_signature_replays_witness :
  exists s2,
    consentForHyperboardWithSignature (a_chain 0xA11CE)
      (set_consentBasedCertsMapping
         (<[0 := consented a_board 0 ++ [7]]>
            (consentBasedCertsMapping a_board)) a_board)
      0xB0B 0 7 0xA11CE 11 12 27
    = Ok (s2, [GotConsent 0 7 0xB0B])
    /\ consented s2 0 = consented a_board 0 ++ [7; 7].
Proof.
  apply (consent_signature_replays (a_chain 0xA11CE) a_board).
  reflexivity.
Defined.

(** X12. Anyone may hand in a consent signature: the storage that
    [consentForHyperboardWithSignature] leaves behind does not depend on
    the caller, and the [GotConsent] event of a successful call names the
    caller, not the signer. *)
Theorem consent_signature_any_sender (env : Env) (s : State)
    (sender sender' : address) (tokenId_ claimId_ : uint256) (signer : address)
    (r s_ : bytes32) (v : uint8) :
  state_after s
    (consentForHyperboardWithSignature env s sender tokenId_ claimId_ signer
       r s_ v)
  = state_after s
      (consentForHyperboardWithSignature env s sender' tokenId_ claimId_ signer
         r s_ v)
  /\ forall s' evs,
       consentForHyperboardWithSignature env s sender tokenId_ claimId_ signer
         r s_ v = Ok (s', evs) ->
       evs = [GotConsent tokenId_ claimId_ sender]
       /\ consentForHyperboardWithSignature env s sender' tokenId_ claimId_
            signer r s_ v
          = Ok (s', [GotConsent tokenId_ claimId_ sender']).
Proof.
  split.
  - unfold consentForHyperboardWithSignature, _consentForHyperboard.
    destruct (ECDSA_recover env _ v r s_) as [a |]; [| reflexivity].
    cbn. destruct (negb (a =? signer)); [reflexivity |].
    cbn. destruct (minter_ownerOf env (hypercertMinter s) claimId_) as [o |];
      [| reflexivity].
    cbn. destruct (negb (o =? signer)); reflexivity.
  - intros s' evs Hcall.
    destruct (consent_success env s sender tokenId_ claimId_ signer r s_ v s'
                evs Hcall) as (Hr & Ho & _ & _ & ->).
    split; [reflexivity |].
    rewrite (consentForHyperboardWithSignature_run env s sender tokenId_
               claimId_ signer r s_ v Hr Ho) in Hcall.
    injection Hcall as <-.
    apply consentForHyperboardWithSignature_run; assumption.
Qed.

Lemma consent_signature_any_sender_witness :
  consentForHyperboardWithSignature (a_chain 0xA11CE) a_board 0xCAFE 0 7
    0xA11CE 11 12 27
  = Ok (set_consentBasedCertsMapping
          (<[0 := consented a_board 0 ++ [7]]>
             (consentBasedCertsMapping a_board)) a_board,
        [GotConsent 0 7 0xCAFE]).
Proof.
  apply (proj2 (consent_signature_any_sender (a_chain 0xA11CE) a_board 0xB0B
                  0xCAFE 0 7 0xA11CE 11 12 27)
           _ [GotConsent 0 7 0xB0B]).
  reflexivity.
Defined.

(** *** [updateHyperboad] and [mint] *)

Lemma updateHyperboad_ok (s s' : State) (sender : address) (tokenId_ : uint256)
    (ids : list uint256) (metadata_ : string) (evs : list Event) :
  updateHyperboad s sender tokenId_ ids metadata_ = Ok (s', evs) ->
  minted s tokenId_
  /\ read address0 (_owners s) tokenId_ = sender
  /\ evs = []
  /\ s' = _setAllowlist tokenId_ ids
            (set_tokenURIs (<[tokenId_ := metadata_]> (_tokenURIs s)) s).
Proof.
  unfold updateHyperboad, ownerOf, _setTokenURI, minted.
  destruct (N.eqb_spec (read address0 (_owners s) tokenId_) address0)
    as [| Hminted]; [discriminate |].
  cbn. destruct (N.eqb_spec (read address0 (_owners s) tokenId_) sender)
    as [Howner |]; [| discriminate].
  cbn. intros [= <- <-]. repeat split; assumption.
Qed.

(** X13. [updateHyperboad] goes through exactly when the board exists and
    the caller owns it, and reverts with [NotApprovedOrOwner] for any other
    caller of an existing board. Afterwards [getAllowListedCerts] of the
    board is the new list and its metadata the new metadata; the other
    boards, every consented list and the minter stay as they were, and no
    event of this contract is emitted. *)
Theorem updateHyperboad_outcome (s : State) (sender : address)
    (tokenId_ : uint256) (ids : list uint256) (metadata_ : string) :
  ((exists s' evs, updateHyperboad s sender tokenId_ ids metadata_ = Ok (s', evs))
   <-> minted s tokenId_ /\ read address0 (_owners s) tokenId_ = sender)
  /\ (minted s tokenId_ -> read address0 (_owners s) tokenId_ <> sender ->
      updateHyperboad s sender tokenId_ ids metadata_
      = Revert NotApprovedOrOwner)
  /\ (forall s' evs,
        updateHyperboad s sender tokenId_ ids metadata_ = Ok (s', evs) ->
        getAllowListedCerts s' tokenId_ = ids
        /\ metadataOf s' tokenId_ = metadata_
        /\ (forall other, other <> tokenId_ ->
              getAllowListedCerts s' other = getAllowListedCerts s other
              /\ metadataOf s' other = metadataOf s other)
        /\ (forall t, consented s' t = consented s t)
        /\ hypercertMinter s' = hypercertMinter s
        /\ evs = []).
Proof.
  split; [split |].
  - intros (s' & evs & H).
    destruct (updateHyperboad_ok _ _ _ _ _ _ _ H) as (Hm & Ho & _).
    split; assumption.
  - intros [Hm Ho]. unfold updateHyperboad, ownerOf, _setTokenURI, minted in *.
    destruct (N.eqb_spec (read address0 (_owners s) tokenId_) address0)
      as [| _]; [contradiction |].
    cbn. rewrite Ho, N.eqb_refl. cbn. eexists. eexists. reflexivity.
  - split.
    + intros Hm Ho. unfold updateHyperboad, ownerOf, minted in *.
      destruct (N.eqb_spec (read address0 (_owners s) tokenId_) address0)
        as [| _]; [contradiction |].
      cbn. destruct (N.eqb_spec (read address0 (_owners s) tokenId_) sender)
        as [| _]; [contradiction | reflexivity].
    + intros s' evs H.
      destruct (updateHyperboad_ok _ _ _ _ _ _ _ H) as (_ & _ & -> & ->).
      unfold getAllowListedCerts, metadataOf, _setAllowlist, read. cbn.
      rewrite !lookup_insert_eq. repeat split.
      * rewrite lookup_insert_ne by congruence. reflexivity.
      * rewrite lookup_insert_ne by congruence. reflexivity.
Qed.

Lemma updateHyperboad_outcome_witness :
  exists s' evs,
    updateHyperboad a_board 0xB0A2D 0 [7; 8] "ipfs://meta" = Ok (s', evs).
Proof.
  apply (proj2 (proj1 (updateHyperboad_outcome a_board 0xB0A2D 0 [7; 8]
                         "ipfs://meta"))).
  split; [vm_compute; discriminate | reflexivity].
Defined.

Lemma board_mint_ok (s s' : State) (to : address) (ids : list uint256)
    (metadata_ : string) (evs : list Event) (tokenId : uint256) :
  mint s to ids metadata_ = Ok (s', evs, tokenId) ->
  to <> address0
  /\ ~ minted s (_counter s)
  /\ tokenId = _counter s
  /\ evs = [Mint to (_counter s) metadata_]
  /\ s' = set_counter (increment (_counter s))
            (_setAllowlist (_counter s) ids
               (set_tokenURIs (<[_counter s := metadata_]> (_tokenURIs s))
                  (set_owners (<[_counter s := to]> (_owners s)) s))).
Proof.
  unfold mint, _mint, _setTokenURI, minted.
  destruct (N.eqb_spec to address0) as [| Hto]; [discriminate |].
  cbn. destruct (N.eqb_spec to address0) as [| _]; [contradiction |].
  cbn. destruct (N.eqb_spec (read address0 (_owners s) (_counter s)) address0)
    as [Hfree |]; [| discriminate].
  cbn. unfold read at 1. cbn. rewrite lookup_insert_eq. cbn.
  destruct (N.eqb_spec to address0) as [| _]; [contradiction |].
  cbn. intros [= <- <- <-].
  repeat split; try assumption. intros H. apply H. exact Hfree.
Qed.

(** X14. [mint] goes through exactly when the recipient is not the zero
    address and no token carries the id the counter points at. It returns
    that id, makes the recipient its owner, stores the allowlist and the
    metadata under it, moves the counter on by one and emits [Mint]; the
    consented lists and the minter are untouched. *)
Theorem mint_outcome (s : State) (to : address) (ids : list uint256)
    (metadata_ : string) :
  ((exists s' evs tokenId, mint s to ids metadata_ = Ok (s', evs, tokenId))
   <-> to <> address0 /\ ~ minted s (_counter s))
  /\ (forall s' evs tokenId,
        mint s to ids metadata_ = Ok (s', evs, tokenId) ->
        tokenId = _counter s
        /\ ownerOf s' tokenId = Ok to
        /\ getAllowListedCerts s' tokenId = ids
        /\ metadataOf s' tokenId = metadata_
        /\ _counter s' = increment (_counter s)
        /\ evs = [Mint to tokenId metadata_]
        /\ (forall t, consented s' t = consented s t)
        /\ hypercertMinter s' = hypercertMinter s).
Proof.
  split; [split |].
  - intros (s' & evs & tokenId & H).
    destruct (board_mint_ok _ _ _ _ _ _ _ H) as (Hto & Hfree & _). split; assumption.
  - intros [Hto Hfree]. unfold mint, _mint, _setTokenURI, minted in *.
    destruct (N.eqb_spec to address0) as [| _]; [contradiction |].
    cbn. destruct (N.eqb_spec to address0) as [| _]; [contradiction |].
    cbn. destruct (N.eqb_spec (read address0 (_owners s) (_counter s))
                     address0) as [_ | Hne]; [| contradiction].
    cbn. unfold read at 1. cbn. rewrite lookup_insert_eq. cbn.
    destruct (N.eqb_spec to address0) as [| _]; [contradiction |].
    cbn. eexists. eexists. eexists. reflexivity.
  - intros s' evs tokenId H.
    destruct (board_mint_ok _ _ _ _ _ _ _ H) as (Hto & Hfree & -> & -> & ->).
    unfold ownerOf, getAllowListedCerts, metadataOf, _setAllowlist, read. cbn.
    rewrite !lookup_insert_eq. cbn.
    destruct (N.eqb_spec to address0) as [| _]; [contradiction |].
    repeat split.
Qed.

Lemma mint_outcome_witness :
  exists s' evs tokenId,
    mint a_board 0xA11CE [7; 8] "ipfs://meta" = Ok (s', evs, tokenId).
Proof.
  apply (proj2 (proj1 (mint_outcome a_board 0xA11CE [7; 8] "ipfs://meta"))).
  split; [discriminate |]. intros H. apply H. reflexivity.
Defined.

(** *** Sequences of transactions *)

Ltac guards :=
  repeat match goal with
         | |- context [revert_if ?c _] => destruct c; cbn
         | |- context [external ?o] => destruct o; cbn
         | |- context [match ?o with Some _ => _ | None => _ end] =>
             destruct o; cbn
         end.

Ltac unchanged :=
  split; [reflexivity | intros ?; exists []; rewrite app_nil_r; reflexivity].

(** One transaction: the minter stays, and no consented list loses or
    reorders an entry. *)
Lemma execute_keeps (env : Env) (s : State) (sender : address) (c : Call) :
  hypercertMinter (state_after s (execute env s sender c)) = hypercertMinter s
  /\ forall t, exists added,
       consented (state_after s (execute env s sender c)) t
       = consented s t ++ added.
Proof.
  destruct c as [to ids md | t0 c0 | t0 c0 signer r s_ v | t0 ids md | e | u | m];
    cbn [execute].
  - destruct (mint s to ids md) as [[[s' evs] tokenId] | err] eqn:Hmint; cbn.
    + destruct (board_mint_ok _ _ _ _ _ _ _ Hmint) as (_ & _ & _ & _ & ->).
      unchanged.
    + unchanged.
  - unfold consentForHyperboard, _consentForHyperboard. guards;
      try (unchanged).
    split; [reflexivity |]. intros t. rewrite consented_after.
    case_decide; [subst; eexists; reflexivity |].
    exists []. rewrite app_nil_r. reflexivity.
  - unfold consentForHyperboardWithSignature, _consentForHyperboard. guards;
      try (unchanged).
    split; [reflexivity |]. intros t. rewrite consented_after.
    case_decide; [subst; eexists; reflexivity |].
    exists []. rewrite app_nil_r. reflexivity.
  - destruct (updateHyperboad s sender t0 ids md) as [[s' evs] | err] eqn:Hup;
      cbn.
    + destruct (updateHyperboad_ok _ _ _ _ _ _ _ Hup) as (_ & _ & _ & ->).
      unchanged.
    + unchanged.
  - unfold setSubgraphEndpoint, onlyOwner. guards; unchanged.
  - unfold setBaseUri, onlyOwner. guards; unchanged.
  - unfold setHypercertContract, onlyOwner. guards; unchanged.
Qed.

(** X15. Through any sequence of the modelled transactions ([mint], the two
    consent functions, [updateHyperboad] and the three owner-only setters,
    [setHypercertContract] among them), whoever sends them, the stored
    [hypercertMinter] stays the one the sequence started with. *)
Theorem hypercertMinter_never_changes (env : Env)
    (txs : list (address * Call)) :
  forall s, hypercertMinter (execute_all env s txs) = hypercertMinter s.
Proof.
  induction txs as [| [sender c] txs IH]; intros s; cbn [execute_all];
    [reflexivity |].
  rewrite IH. apply execute_keeps.
Qed.

(** X16. Consent is never taken back: through any sequence of the modelled
    transactions, the consented list of every board only grows at its
    end. *)
Theorem consent_only_grows (env : Env) (txs : list (address * Call)) :
  forall s t, exists added,
    consented (execute_all env s txs) t = consented s t ++ added.
Proof.
  induction txs as [| [sender c] txs IH]; intros s t; cbn [execute_all].
  - exists []. rewrite app_nil_r. reflexivity.
  - destruct (IH (state_after s (execute env s sender c)) t) as [later Hl].
    destruct (proj2 (execute_keeps env s sender c) t) as [first Hf].
    exists (first ++ later). rewrite Hl, Hf, <- app_assoc. reflexivity.
Qed.

Example consent_then_setHypercertContract :
  hypercertMinter
    (execute_all (a_chain 0xA11CE) a_board
       [(0xA11CE, CallConsentForHyperboard 0 7);
        (0xDE9107, CallSetHypercertContract 0x5000);
        (0xB0B, CallConsentForHyperboardWithSignature 0 9 0xA11CE 11 12 27)])
  = 0x4000
  /\ consented
       (execute_all (a_chain 0xA11CE) a_board
          [(0xA11CE, CallConsentForHyperboard 0 7);
           (0xDE9107, CallSetHypercertContract 0x5000);
           (0xB0B, CallConsentForHyperboardWithSignature 0 9 0xA11CE 11 12 27)])
       0
     = [7; 9].
Proof. split; vm_compute; reflexivity. Qed.

End HyperboardFacts.

(** ** [mintFractionAllowlistBatch.ts] *)

Module MintFractionAllowlistBatchFacts.
Import MintFractionAllowlistBatch.

(** *** [_.isEqual] and [_.uniqWith] *)

Lemma list_eqb_string_spec (l1 : list string) :
  forall l2, list_eqb String.eqb l1 l2 = true <-> l1 = l2.
Proof.
  induction l1 as [| x l1 IH]; intros [| y l2]; cbn;
    try (split; [discriminate | discriminate]); [tauto |].
  rewrite andb_true_iff, String.eqb_eq, IH.
  split; [intros [-> ->]; reflexivity | intros [= -> ->]; tauto].
Qed.

Lemma isEqual_spec (a b : ClaimProof) : isEqual a b = true <-> a = b.
Proof.
  unfold isEqual.
  rewrite !andb_true_iff, String.eqb_eq, Z.eqb_eq, list_eqb_string_spec.
  destruct a as [ia ua pa], b as [ib ub pb]; cbn.
  split; [intros [[-> ->] ->]; reflexivity | intros [= -> -> ->]; tauto].
Qed.

Lemma isEqual_fields (a b : ClaimProof) :
  claimIDContract a = claimIDContract b ->
  units a = units b ->
  proof a = proof b ->
  isEqual a b = true.
Proof.
  intros H1 H2 H3. apply isEqual_spec.
  destruct a, b; cbn in *; congruence.
Qed.

Section UniqWith.
Context {A : Type} (comparator : A -> A -> bool).
Hypothesis comparator_spec : forall x y, comparator x y = true <-> x = y.

Let push (result : list A) (value : A) : list A :=
  if arrayIncludesWith result value comparator then result
  else result ++ [value].

Lemma arrayIncludesWith_spec (array : list A) (value : A) :
  arrayIncludesWith array value comparator = true <-> List.In value array.
Proof.
  unfold arrayIncludesWith. rewrite existsb_exists. split.
  - intros (y & Hy & Hc). apply comparator_spec in Hc. congruence.
  - intros Hin. exists value. split; [exact Hin |].
    apply comparator_spec. reflexivity.
Qed.

(** The invariant of the loop of [baseUniq]. *)
Lemma baseUniq_loop (array : list A) :
  forall result : list A,
    List.NoDup result ->
    List.NoDup (fold_left push array result)
    /\ forall x, List.In x (fold_left push array result)
                 <-> List.In x result \/ List.In x array.
Proof.
  induction array as [| v array IH]; intros result Hnd; cbn.
  - split; [exact Hnd | tauto].
  - assert (Hnd' : List.NoDup (push result v)).
    { unfold push.
      destruct (arrayIncludesWith result v comparator) eqn:Hinc;
        [exact Hnd |].
      assert (Hnin : ~ List.In v result).
      { rewrite <- arrayIncludesWith_spec. congruence. }
      clear - Hnd Hnin. induction result as [| y result IHr]; cbn.
      - constructor; [intros [] | constructor].
      - inversion Hnd as [| ? ? Hy Hnd']; subst. constructor.
        + rewrite in_app_iff. cbn. intros [H | [H | []]]; [tauto |].
          apply Hnin. left. congruence.
        + apply IHr; [exact Hnd' |]. intros H. apply Hnin. right. exact H. }
    destruct (IH _ Hnd') as [Hres Hmem]. split; [exact Hres |].
    intros x. rewrite Hmem. unfold push.
    destruct (arrayIncludesWith result v comparator) eqn:Hinc.
    + apply arrayIncludesWith_spec in Hinc.
      split; [tauto |]. intros [H | [-> | H]]; tauto.
    + rewrite in_app_iff. cbn. tauto.
Qed.

Lemma uniqWith_NoDup (array : list A) :
  List.NoDup (uniqWith array comparator).
Proof. apply (baseUniq_loop array []). constructor. Qed.

Lemma uniqWith_In (array : list A) (x : A) :
  List.In x (uniqWith array comparator) <-> List.In x array.
Proof.
  pose proof (proj2 (baseUniq_loop array [] (List.NoDup_nil A)) x) as H.
  unfold push in H. cbn in H. unfold uniqWith, baseUniq. tauto.
Qed.

Lemma no_match (l : list A) (x : A) :
  ~ List.In x l -> List.filter (comparator x) l = [].
Proof.
  induction l as [| z l IHl]; cbn; [reflexivity |].
  intros Hnin. destruct (comparator x z) eqn:Hc.
  - apply comparator_spec in Hc. subst z. exfalso. apply Hnin. left.
    reflexivity.
  - apply IHl. intros H. apply Hnin. right. exact H.
Qed.

(** In a duplicate-free list exactly one entry matches a member. *)
Lemma one_match (l : list A) (x : A) :
  List.NoDup l -> List.In x l ->
  length (List.filter (comparator x) l) = 1%nat.
Proof.
  induction 1 as [| y l Hy Hnd IH]; cbn; [intros [] |].
  intros [-> | Hin].
  - replace (comparator x x) with true
      by (symmetry; apply comparator_spec; reflexivity).
    cbn. rewrite no_match by exact Hy. reflexivity.
  - destruct (comparator x y) eqn:Hc.
    + apply comparator_spec in Hc. subst y. contradiction.
    + apply IH. exact Hin.
Qed.

End UniqWith.


(** *** The three arrays handed to the contract call *)



Example unique_drops_the_duplicate :
  unique [Many [Some proof_1; None; Some proof_2];
          Single (Some proof_1); Single None] = [proof_1; proof_2].
Proof. reflexivity. Qed.

(** C3. Deduplication compares values: two verified [ClaimProof]s whose
    [claimIDContract], [units] and [proof] agree are matched by one and the
    same single entry of the output; and permuting the input changes
    neither which values the output holds nor, up to order, the
    output. *)
Theorem uniqWith_isEqual_by_value (verified : list ClaimProof) :
  (forall a b,
      List.In a verified -> List.In b verified ->
      claimIDContract a = claimIDContract b ->
      units a = units b ->
      proof a = proof b ->
      length (List.filter (isEqual a) (uniqWith verified isEqual)) = 1%nat
      /\ List.filter (isEqual b) (uniqWith verified isEqual)
         = List.filter (isEqual a) (uniqWith verified isEqual))
  /\ (forall verified',
        Permutation verified verified' ->
        (forall x, List.In x (uniqWith verified isEqual)
                   <-> List.In x (uniqWith verified' isEqual))
        /\ Permutation (uniqWith verified isEqual)
             (uniqWith verified' isEqual)).
Proof.
  split.
  - intros a b Ha Hb H1 H2 H3.
    assert (Hab : a = b) by (apply isEqual_spec, isEqual_fields; assumption).
    subst b. split; [| reflexivity].
    apply one_match.
    + exact isEqual_spec.
    + apply uniqWith_NoDup, isEqual_spec.
    + apply uniqWith_In; [exact isEqual_spec | exact Ha].
  - intros verified' Hperm.
    assert (Hmem : forall x, List.In x (uniqWith verified isEqual)
                             <-> List.In x (uniqWith verified' isEqual)).
    { intros x. rewrite !uniqWith_In by exact isEqual_spec.
      split; intros H.
      - eapply Permutation_in; [exact Hperm | exact H].
      - eapply Permutation_in; [symmetry; exact Hperm | exact H]. }
    split; [exact Hmem |].
    apply Permutation.NoDup_Permutation; try exact Hmem;
      apply uniqWith_NoDup, isEqual_spec.
Qed.

Lemma uniqWith_isEqual_by_value_witness :
  length
    (List.filter (isEqual proof_1)
       (uniqWith
          [proof_1; proof_2;
           {| claimIDContract := "1"; units := 10;
              proof := ["0xaa"; "0xab"] |}] isEqual)) = 1%nat
  /\ Permutation
       (uniqWith
          [proof_1; proof_2;
           {| claimIDContract := "1"; units := 10;
              proof := ["0xaa"; "0xab"] |}] isEqual)
       (uniqWith
          [proof_2; proof_1;
           {| claimIDContract := "1"; units := 10;
              proof := ["0xaa"; "0xab"] |}] isEqual).
Proof.
  split.
  - apply (proj1 (uniqWith_isEqual_by_value
                    [proof_1; proof_2;
                     {| claimIDContract := "1"; units := 10;
                        proof := ["0xaa"; "0xab"] |}])
             proof_1
             {| claimIDContract := "1"; units := 10;
                proof := ["0xaa"; "0xab"] |}).
    + left. reflexivity.
    + right. right. left. reflexivity.
    + reflexivity.
    + reflexivity.
    + reflexivity.
  - apply (proj2 (uniqWith_isEqual_by_value
                    [proof_1; proof_2;
                     {| claimIDContract := "1"; units := 10;
                        proof := ["0xaa"; "0xab"] |}])
             [proof_2; proof_1;
              {| claimIDContract := "1"; units := 10;
                 proof := ["0xaa"; "0xab"] |}]).
    apply perm_swap.
Defined.

Example uniqWith_keeps_first_occurrences :
  uniqWith [proof_2; proof_1; proof_2; proof_1] isEqual = [proof_2; proof_1].
Proof. reflexivity. Qed.

(** *** Running the workflow *)

Ltac run :=
  unfold mbind, M_bind, bind, emit, toast, ret, throw, setStep, hideModal,
    showModal, setTxPending, await, when; cbn.

Lemma callVerifyFractionClaim_run (h : Hooks) (address : string) (ui : UI) :
  forall ids : list string,
    callVerifyFractionClaim h ids address ui
    = (Normal (map (fun claimId => verifyFractionClaim h claimId address) ids),
       ui,
       map (fun claimId => CallVerifyFractionClaim claimId address) ids).
Proof.
  induction ids as [| claimId ids IH]; [reflexivity |].
  cbn [callVerifyFractionClaim]. run. rewrite IH. cbn.
  rewrite app_nil_r. reflexivity.
Qed.

Section Started.
Variables (h : Hooks) (ui : UI) (addr : string) (ids : list string).
Hypothesis Haddress : address h = Some addr.
Hypothesis Hconnected : addr <> "".
Hypothesis HclaimIds : claimIds h = Some ids.

Let promises : list (Settled VerifyResult) :=
  map (fun claimId => verifyFractionClaim h claimId addr) ids.

Lemma not_falsy : falsy (address h) = false.
Proof.
  rewrite Haddress. cbn. apply String.eqb_neq. exact Hconnected.
Qed.

(** A rejected verification aborts the workflow before the [try]. *)
Lemma initializeWrite_rejected (e : Error) :
  promise_all promises = Rejected e ->
  initializeWrite h ui = (Throw e, ui_at proofs ids ui, verifying ids addr).
Proof.
  intros Hall. unfold initializeWrite.
  rewrite not_falsy, HclaimIds, Haddress. run.
  destruct (Nat.eqb (length ids) 0) eqn:Hlen; cbn;
    rewrite callVerifyFractionClaim_run; cbn; fold promises;
    rewrite Hall; unfold verifying, ui_at; rewrite Hlen; cbn;
    rewrite ?app_nil_r; reflexivity.
Qed.

(** Otherwise the workflow reaches the [try] statement. *)
Lemma initializeWrite_resolved (results : list VerifyResult) :
  promise_all promises = Resolved results ->
  let r :=
    mintAndWait h (claimIDs results) (unitAmounts results)
      (proofArrays results) (ui_at minting ids ui) in
  initializeWrite h ui
  = (outcome r, final r, verifying ids addr ++ logging ++ trace r).
Proof.
  intros Hall r. unfold initializeWrite.
  rewrite not_falsy, HclaimIds, Haddress. run.
  destruct (Nat.eqb (length ids) 0) eqn:Hlen; cbn;
    rewrite callVerifyFractionClaim_run; cbn; fold promises;
    rewrite Hall; cbn; subst r; unfold verifying, ui_at, logging;
    rewrite Hlen; cbn;
    destruct (mintAndWait _ _ _ _ _) as [[c ui'] t]; reflexivity.
Qed.

End Started.

(** *** The [try] statement *)

Ltac run_mint :=
  unfold mintAndWait, try_catch_finally, callBatchMint, callWait,
    callOnComplete, status_is, outcome, final, trace, completion; run.

Section Receipt.
Variables (h : Hooks) (ui : UI).
Variables (ids : list string) (us : list Z) (ps : list (list HexString)).
Variables (c : Client) (tx : Tx) (receipt : Receipt).
Hypothesis Hclient : client h = Some c.
Hypothesis Hmint :
  batchMintClaimFractionsFromAllowlists c ids us ps = Resolved tx.
Hypothesis Hwait : wait tx 5 = Resolved receipt.

Let r := mintAndWait h ids us ps ui.

Lemma mintAndWait_status_1 :
  status receipt = Some 1%Z ->
  outcome r = Normal tt
  /\ final r
     = {| txPending := false; step := Some complete;
          modalVisible := modalVisible ui |}
  /\ trace r
     = [SetTxPending true; CallBatchMint ids us ps; SetStep waiting;
        CallWait 5; Toast (toastSuccess h) success; SetStep complete]
       ++ completion h ++ [SetTxPending false].
Proof.
  intros Hs. subst r. run_mint. rewrite Hclient. cbn. rewrite Hmint. cbn.
  rewrite Hwait. cbn. rewrite Hs.
  destruct (onComplete h) as [[[] | e] |]; vm_compute; repeat split.
Qed.

Lemma mintAndWait_status_0 :
  status receipt = Some 0%Z ->
  outcome r = Normal tt
  /\ final r
     = {| txPending := false; step := Some waiting;
          modalVisible := modalVisible ui |}
  /\ trace r
     = [SetTxPending true; CallBatchMint ids us ps; SetStep waiting;
        CallWait 5; Toast "Minting failed" error; ConsoleError "receipt";
        SetTxPending false].
Proof.
  intros Hs. subst r. run_mint. rewrite Hclient. cbn. rewrite Hmint. cbn.
  rewrite Hwait. cbn. rewrite Hs. vm_compute. repeat split.
Qed.

End Receipt.

Lemma filter_verifying (f : Effect -> bool) (ids : list string)
    (addr : string) :
  f (SetStep proofs) = false -> f HideModal = false ->
  (forall claimId, f (CallVerifyFractionClaim claimId addr) = false) ->
  List.filter f (verifying ids addr) = [].
Proof.
  intros H1 H2 H3. unfold verifying. cbn. rewrite H1.
  destruct (Nat.eqb (length ids) 0); cbn; rewrite ?H2;
    induction ids as [| claimId ids IH]; cbn; rewrite ?H3; auto.
Qed.

(** *** An empty list of eligible claims *)

(** With a connected address, an empty list of eligible claims and a
    client, the workflow goes on to call the contract with three empty
    arrays. *)
Lemma empty_claims_reach_the_contract (h : Hooks) (ui : UI) (addr : string)
    (c : Client) :
  address h = Some addr -> addr <> "" -> claimIds h = Some [] ->
  client h = Some c ->
  List.In (CallBatchMint [] [] []) (trace (initializeWrite h ui)).
Proof.
  intros Ha Hne Hids Hc.
  pose proof (initializeWrite_resolved h ui addr [] Ha Hne Hids [] eq_refl)
    as Hrun.
  cbv zeta in Hrun. rewrite Hrun. unfold trace at 1. cbn [snd].
  apply in_or_app. right. apply in_or_app. right.
  change (claimIDs []) with (@nil string).
  change (unitAmounts []) with (@nil Z).
  change (proofArrays []) with (@nil (list HexString)).
  run_mint. rewrite Hc. cbn.
  destruct (batchMintClaimFractionsFromAllowlists c [] [] []) as [tx | e];
    cbn; [| right; left; reflexivity].
  destruct (wait tx 5) as [receipt | e]; cbn; [| right; left; reflexivity].
  destruct (status receipt) as [k |];
    [destruct (Z.eqb k 0), (Z.eqb k 1) |];
    destruct (onComplete h) as [[[] | e] |]; vm_compute; tauto.
Qed.

(** C1. The address [0xaa] is connected and its list of eligible claims is
    present but empty; the receipt has status 1. The workflow hides the
    modal and then carries on: it submits
    [batchMintClaimFractionsFromAllowlists([], [], [])], waits for the
    receipt and calls [onComplete]. *)
Theorem empty_eligibility_still_mints :
  outcome (write (some_hooks [] 1) initialUI) = Normal tt
  /\ List.filter is_CallBatchMint (trace (write (some_hooks [] 1) initialUI))
     = [CallBatchMint [] [] []]
  /\ List.filter is_CallOnComplete
       (trace (write (some_hooks [] 1) initialUI))
     = [CallOnComplete]
  /\ trace (write (some_hooks [] 1) initialUI)
     = [ShowModal; SetStep initial; SetStep proofs; HideModal;
        ConsoleLog "Unique Verified proofs"; ConsoleLog "Ids";
        ConsoleLog "Units"; ConsoleLog "Proofs"; SetStep minting;
        SetTxPending true; CallBatchMint [] [] []; SetStep waiting;
        CallWait 5;
        Toast "Your hypercert fraction has been minted" success;
        SetStep complete; CallOnComplete; SetTxPending false].
Proof. vm_compute. repeat split. Qed.

(** *** The receipt *)

Lemma filter_completion (h : Hooks) :
  length (List.filter is_CallOnComplete (completion h))
  = match onComplete h with Some _ => 1%nat | None => 0%nat end.
Proof.
  unfold completion. destruct (onComplete h) as [[[] | e] |]; reflexivity.
Qed.

(** C4. In a run that obtains a receipt: with status 1 the [complete] step
    is set and [onComplete], when the caller supplied one, is called
    exactly once; with status 0 [onComplete] is not called, the error
    notification "Minting failed" is shown, the workflow returns without
    throwing, and its last effect is the [finally] block's
    [setTxPending(false)]. *)
Theorem receipt_status_decides_completion
    (h : Hooks) (ui : UI) (addr : string) (ids : list string)
    (results : list VerifyResult) (c : Client) (tx : Tx)
    (receipt : Receipt) :
  address h = Some addr -> addr <> "" -> claimIds h = Some ids ->
  promise_all (map (fun claimId => verifyFractionClaim h claimId addr) ids)
  = Resolved results ->
  client h = Some c ->
  batchMintClaimFractionsFromAllowlists c (claimIDs results)
    (unitAmounts results) (proofArrays results) = Resolved tx ->
  wait tx 5 = Resolved receipt ->
  (status receipt = Some 1%Z ->
     length (List.filter is_CallOnComplete (trace (initializeWrite h ui)))
     = match onComplete h with Some _ => 1%nat | None => 0%nat end
     /\ List.In (SetStep complete) (trace (initializeWrite h ui))
     /\ step (final (initializeWrite h ui)) = Some complete
     /\ txPending (final (initializeWrite h ui)) = false)
  /\ (status receipt = Some 0%Z ->
     List.filter is_CallOnComplete (trace (initializeWrite h ui)) = []
     /\ List.In (Toast "Minting failed" error) (trace (initializeWrite h ui))
     /\ outcome (initializeWrite h ui) = Normal tt
     /\ txPending (final (initializeWrite h ui)) = false
     /\ exists t, trace (initializeWrite h ui) = t ++ [SetTxPending false]).
Proof.
  intros Ha Hne Hids Hall Hc Hmint Hwait.
  pose proof (initializeWrite_resolved h ui addr ids Ha Hne Hids results Hall)
    as Hrun.
  cbv zeta in Hrun. rewrite Hrun. clear Hrun.
  assert (Hquiet :
    forall t, List.filter is_CallOnComplete (verifying ids addr ++ logging ++ t)
              = List.filter is_CallOnComplete t).
  { intros t. rewrite !List.filter_app, filter_verifying by reflexivity.
    reflexivity. }
  split; intros Hs.
  - destruct (mintAndWait_status_1 h (ui_at minting ids ui) _ _ _ c tx receipt
                Hc Hmint Hwait Hs) as (Ho & Hf & Ht).
    unfold outcome, final, trace in *. cbn [fst snd] in *.
    rewrite Hquiet, Hf, Ht. cbn [List.filter is_CallOnComplete app].
    rewrite List.filter_app, List.length_app, filter_completion.
    cbn [List.filter is_CallOnComplete length step txPending].
    repeat split.
    + lia.
    + apply in_or_app. right. apply in_or_app. right. cbn. tauto.
  - destruct (mintAndWait_status_0 h (ui_at minting ids ui) _ _ _ c tx receipt
                Hc Hmint Hwait Hs) as (Ho & Hf & Ht).
    unfold outcome, final, trace in *. cbn [fst snd] in *.
    rewrite Hquiet, Ho, Hf, Ht. cbn [List.filter is_CallOnComplete].
    repeat split.
    + apply in_or_app. right. apply in_or_app. right. cbn. tauto.
    + exists (verifying ids addr ++ logging
              ++ [SetTxPending true;
                  CallBatchMint (claimIDs results) (unitAmounts results)
                    (proofArrays results);
                  SetStep waiting; CallWait 5; Toast "Minting failed" error;
                  ConsoleError "receipt"]).
      rewrite <- !app_assoc. reflexivity.
Qed.

Lemma receipt_status_decides_completion_witness :
  length
    (List.filter is_CallOnComplete
       (trace (initializeWrite (some_hooks ["1"; "2"] 1) initialUI)))
  = 1%nat
  /\ List.filter is_CallOnComplete
       (trace (initializeWrite (some_hooks ["1"; "2"] 0) initialUI))
     = [].
Proof.
  split.
  - apply (proj1
             (receipt_status_decides_completion (some_hooks ["1"; "2"] 1)
                initialUI "0xaa" ["1"; "2"]
                [Single (Some proof_1); Single (Some proof_2)]
                (a_client 1) (a_tx 1) (a_receipt 1)
                eq_refl ltac:(discriminate) eq_refl eq_refl eq_refl eq_refl
                eq_refl)).
    reflexivity.
  - apply (proj2
             (receipt_status_decides_completion (some_hooks ["1"; "2"] 0)
                initialUI "0xaa" ["1"; "2"]
                [Single (Some proof_1); Single (Some proof_2)]
                (a_client 0) (a_tx 0) (a_receipt 0)
                eq_refl ltac:(discriminate) eq_refl eq_refl eq_refl eq_refl
                eq_refl)).
    reflexivity.
Defined.

(** *** The pending flag *)






(** **** The state follows the effects *)

















(** **** Where the flag is raised and lowered *)


Lemma preparatory_verifying (ids : list string) (addr : string) :
  forallb preparatory (verifying ids addr) = true.
Proof.
  unfold verifying. cbn [forallb preparatory andb].
  rewrite forallb_app. apply andb_true_iff. split.
  - destruct (Nat.eqb (length ids) 0); reflexivity.
  - induction ids as [| claimId ids IH]; [reflexivity | exact IH].
Qed.

(** The [try] statement never throws; its effects are the raising of the
    flag, effects of the attempt, and the lowering of the flag. *)
Lemma mintAndWait_shape (h : Hooks) (ids : list string) (us : list Z)
    (ps : list (list HexString)) (ui : UI) :
  outcome (mintAndWait h ids us ps ui) = Normal tt
  /\ trace (mintAndWait h ids us ps ui)
     = SetTxPending true
       :: removelast (tl (trace (mintAndWait h ids us ps ui)))
       ++ [SetTxPending false]
  /\ forallb attempting (removelast (tl (trace (mintAndWait h ids us ps ui))))
     = true.
Proof.
  run_mint.
  destruct (client h) as [c |]; cbn; [| repeat split].
  destruct (batchMintClaimFractionsFromAllowlists c ids us ps) as [tx | e];
    cbn; [| repeat split].
  destruct (wait tx 5) as [receipt | e]; cbn; [| repeat split].
  destruct (status receipt) as [k |]; [| vm_compute; repeat split].
  destruct (Z.eqb k 0), (Z.eqb k 1);
    destruct (onComplete h) as [[[] | e] |]; vm_compute; repeat split.
Qed.

Lemma write_run (h : Hooks) (ui : UI) :
  write h ui
  = (outcome (initializeWrite h (replay [ShowModal; SetStep initial] ui)),
     final (initializeWrite h (replay [ShowModal; SetStep initial] ui)),
     ShowModal :: SetStep initial
     :: trace (initializeWrite h (replay [ShowModal; SetStep initial] ui))).
Proof.
  unfold write. run. unfold replay. cbn.
  destruct (initializeWrite h _) as [[[[] | e] ui'] t]; reflexivity.
Qed.

(** The three ways [initializeWrite] can go. *)
Lemma initializeWrite_shape (h : Hooks) (ui : UI) :
  (exists e, initializeWrite h ui = (Throw e, ui, []))
  \/ (exists addr ids e,
        initializeWrite h ui
        = (Throw e, ui_at proofs ids ui, verifying ids addr))
  \/ (exists addr ids results,
        initializeWrite h ui
        = (outcome (mintAndWait h (claimIDs results) (unitAmounts results)
                      (proofArrays results) (ui_at minting ids ui)),
           final (mintAndWait h (claimIDs results) (unitAmounts results)
                    (proofArrays results) (ui_at minting ids ui)),
           verifying ids addr ++ logging
           ++ trace (mintAndWait h (claimIDs results) (unitAmounts results)
                       (proofArrays results) (ui_at minting ids ui)))).
Proof.
  destruct (falsy (address h)) eqn:Hf.
  { left. eexists. unfold initializeWrite. rewrite Hf. reflexivity. }
  destruct (address h) as [addr |] eqn:Ha; cbn in Hf; [| discriminate].
  apply String.eqb_neq in Hf.
  destruct (claimIds h) as [ids |] eqn:Hids.
  - destruct (promise_all
                (map (fun claimId => verifyFractionClaim h claimId addr) ids))
      as [results | e] eqn:Hall.
    + right. right. exists addr, ids, results.
      exact (initializeWrite_resolved h ui addr ids Ha Hf Hids results Hall).
    + right. left. exists addr, ids, e.
      exact (initializeWrite_rejected h ui addr ids Ha Hf Hids e Hall).
  - left. eexists. unfold initializeWrite. rewrite Ha. cbn.
    destruct (String.eqb addr "") eqn:He.
    + apply String.eqb_eq in He. contradiction.
    + rewrite Hids. reflexivity.
Qed.




Example observed_pending_flag :
  observe initialUI (trace (write (some_hooks ["1"] 0) initialUI))
  = [(ShowModal, false); (SetStep initial, false); (SetStep proofs, false);
     (CallVerifyFractionClaim "1" "0xaa", false);
     (ConsoleLog "Unique Verified proofs", false); (ConsoleLog "Ids", false);
     (ConsoleLog "Units", false); (ConsoleLog "Proofs", false);
     (SetStep minting, false); (SetTxPending true, false);
     (CallBatchMint ["1"] [10%Z] [["0xaa"; "0xab"]], true);
     (SetStep waiting, true); (CallWait 5, true);
     (Toast "Minting failed" error, true); (ConsoleError "receipt", true);
     (SetTxPending false, true)].
Proof. reflexivity. Qed.

Example observed_pending_flag_without_client :
  observe initialUI (trace (write (hooks_without_client ["1"]) initialUI))
  = [(ShowModal, false); (SetStep initial, false); (SetStep proofs, false);
     (CallVerifyFractionClaim "1" "0xaa", false);
     (ConsoleLog "Unique Verified proofs", false); (ConsoleLog "Ids", false);
     (ConsoleLog "Units", false); (ConsoleLog "Proofs", false);
     (SetStep minting, false); (SetTxPending true, false);
     (Toast "Something went wrong while minting" error, true);
     (ConsoleError "TypeError: client is undefined", true);
     (SetTxPending false, true)].
Proof. reflexivity. Qed.

(** *** [useGetAllEligibility] *)

(** C6. The eligibility query returns the [claimId]s of exactly the rows
    whose [address] column is the lower-cased address and whose [hidden]
    flag is false; when the storage query reports an error, the error is
    logged and the query returns the empty list without throwing. *)
Theorem getAllEligibility_selects (address : string) (ui : UI) :
  (forall rows : list Row,
      exists ids : list string,
        outcome (getAllEligibility (Rows rows) address ui) = Normal ids
        /\ trace (getAllEligibility (Rows rows) address ui) = []
        /\ ids
           = map row_claimId
               (List.filter
                  (fun x => String.eqb (row_address x) (toLowerCase address)
                            && negb (row_hidden x))
                  rows)
        /\ forall claimId,
             List.In claimId ids
             <-> exists x, List.In x rows
                           /\ row_address x = toLowerCase address
                           /\ row_hidden x = false
                           /\ row_claimId x = claimId)
  /\ (forall e : Error,
        outcome (getAllEligibility (Unreachable e) address ui) = Normal []
        /\ trace (getAllEligibility (Unreachable e) address ui)
           = [ConsoleError "Supabase error:"; ConsoleError e]).
Proof.
  split.
  - intros rows. eexists. split; [reflexivity |].
    split; [reflexivity |].
    assert (Hsame :
      List.filter
        (fun x => String.eqb (row_address x) (toLowerCase address)
                  && Bool.eqb (row_hidden x) false) rows
      = List.filter
          (fun x => String.eqb (row_address x) (toLowerCase address)
                    && negb (row_hidden x)) rows).
    { apply List.filter_ext. intros x. destruct (row_hidden x); reflexivity. }
    split; [cbn; rewrite Hsame; reflexivity |].
    intros claimId. cbn. rewrite Hsame, in_map_iff. split.
    + intros (x & Hid & Hin). apply List.filter_In in Hin.
      destruct Hin as [Hin Hsel]. apply andb_true_iff in Hsel.
      destruct Hsel as [Haddr Hhid]. apply String.eqb_eq in Haddr.
      apply negb_true_iff in Hhid. exists x. auto.
    + intros (x & Hin & Haddr & Hhid & Hid). exists x.
      split; [exact Hid |]. apply List.filter_In. split; [exact Hin |].
      rewrite Haddr, Hhid, String.eqb_refl. reflexivity.
  - intros e. split; reflexivity.
Qed.

Lemma getAllEligibility_selects_witness :
  exists ids : list string,
    outcome (getAllEligibility (Rows some_rows) "0xAA" initialUI) = Normal ids
    /\ List.In "1" ids.
Proof.
  destruct (proj1 (getAllEligibility_selects "0xAA" initialUI) some_rows)
    as (ids & Hout & _ & _ & Hmem).
  exists ids. split; [exact Hout |].
  apply Hmem.
  exists {| row_address := "0xaa"; row_claimId := "1"; row_hidden := false |}.
  repeat split. left. reflexivity.
Defined.

Example getAllEligibility_rows :
  outcome (getAllEligibility (Rows some_rows) "0xAA" initialUI) = Normal ["1"].
Proof. reflexivity. Qed.

Example getAllEligibility_unreachable :
  getAllEligibility (Unreachable "fetch failed") "0xAA" initialUI
  = (Normal [], initialUI,
     [ConsoleError "Supabase error:"; ConsoleError "fetch failed"]).
Proof. reflexivity. Qed.

(** *** Runs that abort *)

Lemma promise_all_rejected_iff {A} (ps : list (Settled A)) :
  (exists e, promise_all ps = Rejected e) <-> exists e, List.In (Rejected e) ps.
Proof.
  induction ps as [| [a | e0] ps IH]; cbn.
  - split; [intros [e H]; discriminate | intros [e []]].
  - destruct (promise_all ps) as [l | e1].
    + split; [intros [e H]; discriminate |].
      intros [e [H | H]]; [discriminate |].
      destruct (proj2 IH (ex_intro _ e H)) as [e' He']. discriminate.
    + split; [| intros _; exists e1; reflexivity].
      intros _. destruct (proj1 IH (ex_intro _ e1 eq_refl)) as [e' He'].
      exists e'. right. exact He'.
  - split; [| intros _; exists e0; reflexivity].
    intros _. exists e0. left. reflexivity.
Qed.

(** X17. [write] throws exactly when there is no connected address, when
    the eligible claims are not loaded, or when the verification of one of
    the eligible claims is rejected. *)
Theorem write_throws_iff (h : Hooks) (ui : UI) :
  (exists e, outcome (write h ui) = Throw e)
  <-> falsy (address h) = true
      \/ claimIds h = None
      \/ exists ids claimId e,
           claimIds h = Some ids
           /\ List.In claimId ids
           /\ verifyFractionClaim h claimId (default "" (address h))
              = Rejected e.
Proof.
  rewrite write_run. unfold outcome at 1. cbn [fst].
  destruct (falsy (address h)) eqn:Hf.
  { split; [tauto |]. intros _. unfold initializeWrite. rewrite Hf.
    eexists. reflexivity. }
  destruct (address h) as [addr |] eqn:Ha; cbn in Hf; [| discriminate].
  apply String.eqb_neq in Hf. cbn [default].
  destruct (claimIds h) as [ids |] eqn:Hids.
  - destruct (promise_all
                (map (fun claimId => verifyFractionClaim h claimId addr) ids))
      as [results | e] eqn:Hall.
    + rewrite (initializeWrite_resolved h _ addr ids Ha Hf Hids results Hall).
      unfold outcome at 1. cbn [fst].
      rewrite (proj1 (mintAndWait_shape h _ _ _ _)).
      split; [intros [e H]; discriminate |].
      intros [H | [H | (ids' & claimId & e & [= <-] & Hin & Hrej)]];
        try discriminate.
      exfalso.
      assert (Hsome : exists e', promise_all
                (map (fun claimId => verifyFractionClaim h claimId addr) ids)
                = Rejected e').
      { apply promise_all_rejected_iff. exists e. rewrite <- Hrej.
        apply (in_map (fun claimId => verifyFractionClaim h claimId addr)).
        exact Hin. }
      destruct Hsome as [e' He']. congruence.
    + rewrite (initializeWrite_rejected h _ addr ids Ha Hf Hids e Hall).
      unfold outcome. cbn [fst].
      split; [| intros _; exists e; reflexivity].
      intros _. right. right.
      destruct (proj1 (promise_all_rejected_iff _) (ex_intro _ e Hall))
        as [e' He'].
      apply in_map_iff in He'. destruct He' as (claimId & Hrej & Hin).
      exists ids, claimId, e'. repeat split; assumption.
  - split; [intros _; tauto |]. intros _.
    unfold initializeWrite. rewrite Ha. cbn.
    destruct (String.eqb addr "") eqn:He.
    + apply String.eqb_eq in He. contradiction.
    + rewrite Hids. eexists. reflexivity.
Qed.

Lemma write_throws_iff_witness :
  exists e,
    outcome (write (hooks_of a_failing_verifier (Some (a_client 1))) initialUI)
    = Throw e.
Proof.
  apply (proj2 (write_throws_iff (hooks_of a_failing_verifier
                                    (Some (a_client 1))) initialUI)).
  right. right. exists ["1"; "2"], "2", "No allowlist found".
  split; [reflexivity |]. split; [right; left; reflexivity | reflexivity].
Defined.

Lemma attempting_not_verifying (t : list Effect) :
  forallb attempting t = true ->
  List.filter is_CallVerifyFractionClaim t = [].
Proof.
  induction t as [| e t IH]; cbn; [reflexivity |].
  intros H. apply andb_true_iff in H. destruct H as [He Ht].
  rewrite (IH Ht). destruct e; try reflexivity; discriminate.
Qed.

Lemma filter_verifying_calls (ids : list string) (addr : string) :
  List.filter is_CallVerifyFractionClaim (verifying ids addr)
  = map (fun claimId => CallVerifyFractionClaim claimId addr) ids.
Proof.
  unfold verifying. cbn [List.filter is_CallVerifyFractionClaim].
  rewrite List.filter_app.
  replace (List.filter is_CallVerifyFractionClaim
             (if Nat.eqb (length ids) 0 then [HideModal] else []))
    with (@nil Effect) by (destruct (Nat.eqb (length ids) 0); reflexivity).
  cbn [app]. induction ids as [| claimId ids IH]; cbn; [reflexivity |].
  rewrite IH. reflexivity.
Qed.

(** X18. With a connected address and the eligible claims loaded, the
    workflow calls [verifyFractionClaim] once for every eligible claim id,
    in the order of the list and with the connected address, whether or
    not one of the verifications is rejected. *)
Theorem every_claim_is_verified_once (h : Hooks) (ui : UI) (addr : string)
    (ids : list string) :
  address h = Some addr -> addr <> "" -> claimIds h = Some ids ->
  List.filter is_CallVerifyFractionClaim (trace (initializeWrite h ui))
  = map (fun claimId => CallVerifyFractionClaim claimId addr) ids.
Proof.
  intros Ha Hne Hids.
  destruct (promise_all
              (map (fun claimId => verifyFractionClaim h claimId addr) ids))
    as [results | e] eqn:Hall.
  - rewrite (initializeWrite_resolved h ui addr ids Ha Hne Hids results Hall).
    unfold trace at 1. cbn [snd].
    destruct (mintAndWait_shape h (claimIDs results) (unitAmounts results)
                (proofArrays results) (ui_at minting ids ui))
      as (_ & Htr & Hatt).
    rewrite Htr, !List.filter_app, filter_verifying_calls.
    cbn [List.filter is_CallVerifyFractionClaim logging].
    rewrite List.filter_app, (attempting_not_verifying _ Hatt).
    cbn. rewrite app_nil_r. reflexivity.
  - rewrite (initializeWrite_rejected h ui addr ids Ha Hne Hids e Hall).
    unfold trace. cbn [snd]. apply filter_verifying_calls.
Qed.

Lemma every_claim_is_verified_once_witness :
  List.filter is_CallVerifyFractionClaim
    (trace (initializeWrite (hooks_of a_failing_verifier (Some (a_client 1)))
              initialUI))
  = [CallVerifyFractionClaim "1" "0xaa"; CallVerifyFractionClaim "2" "0xaa"].
Proof.
  apply (every_claim_is_verified_once
           (hooks_of a_failing_verifier (Some (a_client 1))) initialUI "0xaa"
           ["1"; "2"]).
  - reflexivity.
  - discriminate.
  - reflexivity.
Defined.

Lemma preparatory_quiet (t : list Effect) :
  forallb preparatory t = true ->
  List.filter is_Toast t = []
  /\ List.filter is_CallBatchMint t = []
  /\ List.filter is_SetTxPending t = []
  /\ List.filter is_CallOnComplete t = [].
Proof.
  induction t as [| e t IH]; cbn; [repeat split |].
  intros H. apply andb_true_iff in H. destruct H as [He Ht].
  destruct (IH Ht) as (-> & -> & -> & ->).
  destruct e; try discriminate; repeat split.
Qed.

(** X19. A run of [write] that throws has shown no notification, has not
    called the contract, has not touched the pending flag and has not
    called [onComplete]; it leaves the modal open, at the step [initial]
    or [proofs]. *)
Theorem aborted_run_is_silent (h : Hooks) (ui : UI) (e : Error) :
  outcome (write h ui) = Throw e ->
  List.filter is_Toast (trace (write h ui)) = []
  /\ List.filter is_CallBatchMint (trace (write h ui)) = []
  /\ List.filter is_SetTxPending (trace (write h ui)) = []
  /\ List.filter is_CallOnComplete (trace (write h ui)) = []
  /\ txPending (final (write h ui)) = txPending ui
  /\ modalVisible (final (write h ui)) = true
  /\ (step (final (write h ui)) = Some initial
      \/ step (final (write h ui)) = Some proofs).
Proof.
  rewrite write_run. unfold outcome at 1, trace at 1 3 5 7, final at 1 3 5 7.
  cbn [fst snd].
  destruct (falsy (address h)) eqn:Hf.
  { unfold initializeWrite. rewrite Hf. intros _.
    unfold outcome, final, trace. cbn. repeat split. left. reflexivity. }
  destruct (address h) as [addr |] eqn:Ha; cbn in Hf; [| discriminate].
  apply String.eqb_neq in Hf.
  destruct (claimIds h) as [ids |] eqn:Hids.
  - destruct (promise_all
                (map (fun claimId => verifyFractionClaim h claimId addr) ids))
      as [results | e'] eqn:Hall.
    + rewrite (initializeWrite_resolved h _ addr ids Ha Hf Hids results Hall).
      unfold outcome at 1. cbn [fst].
      rewrite (proj1 (mintAndWait_shape h _ _ _ _)). discriminate.
    + rewrite (initializeWrite_rejected h _ addr ids Ha Hf Hids e' Hall).
      intros _. unfold outcome, final, trace. cbn [fst snd].
      destruct (preparatory_quiet _ (preparatory_verifying ids addr))
        as (Ht & Hm & Hp & Hc).
      cbn [List.filter is_Toast is_CallBatchMint is_SetTxPending
             is_CallOnComplete].
      rewrite Ht, Hm, Hp, Hc. unfold ui_at, replay.
      destruct ids as [| claimId ids]; [discriminate Hall |].
      cbn. repeat split. right. reflexivity.
  - unfold initializeWrite. rewrite Ha. cbn.
    destruct (String.eqb addr "") eqn:He.
    + apply String.eqb_eq in He. contradiction.
    + rewrite Hids. intros _. unfold outcome, final, trace. cbn.
      repeat split. left. reflexivity.
Qed.

Lemma aborted_run_is_silent_witness :
  List.filter is_Toast
    (trace (write (hooks_of a_failing_verifier (Some (a_client 1))) initialUI))
  = []
  /\ modalVisible
       (final (write (hooks_of a_failing_verifier (Some (a_client 1)))
                 initialUI))
     = true.
Proof.
  destruct (aborted_run_is_silent
              (hooks_of a_failing_verifier (Some (a_client 1))) initialUI
              "No allowlist found" eq_refl)
    as (Ht & _ & _ & _ & _ & Hm & _).
  split; [exact Ht | exact Hm].
Defined.

(** *** One transaction per run *)

Lemma mintAndWait_counts (h : Hooks) (ids : list string) (us : list Z)
    (ps : list (list HexString)) (ui : UI) :
  (length (List.filter is_CallOnComplete (trace (mintAndWait h ids us ps ui)))
   <= length (List.filter is_CallBatchMint (trace (mintAndWait h ids us ps ui))))%nat
  /\ (length (List.filter is_CallBatchMint (trace (mintAndWait h ids us ps ui)))
      <= 1)%nat.
Proof.
  run_mint.
  destruct (client h) as [c |]; cbn; [| split; lia].
  destruct (batchMintClaimFractionsFromAllowlists c ids us ps) as [tx | e];
    cbn; [| split; lia].
  destruct (wait tx 5) as [receipt | e]; cbn; [| split; lia].
  destruct (status receipt) as [k |]; [| vm_compute; split; lia].
  destruct (Z.eqb k 0), (Z.eqb k 1);
    destruct (onComplete h) as [[[] | e] |]; vm_compute; split; lia.
Qed.

(** X20. No run of [write] calls the contract more than once, and
    [onComplete] is never called more often than the contract: at most
    once, and never without a contract call. *)
Theorem at_most_one_transaction (h : Hooks) (ui : UI) :
  (length (List.filter is_CallOnComplete (trace (write h ui)))
   <= length (List.filter is_CallBatchMint (trace (write h ui))))%nat
  /\ (length (List.filter is_CallBatchMint (trace (write h ui))) <= 1)%nat.
Proof.
  rewrite write_run. unfold trace. cbn [snd].
  cbn [List.filter is_CallOnComplete is_CallBatchMint].
  destruct (initializeWrite_shape h (replay [ShowModal; SetStep initial] ui))
    as [(e & ->) | [(addr & ids & e & ->) | (addr & ids & results & ->)]];
    cbn [snd].
  - cbn. lia.
  - rewrite !filter_verifying by reflexivity. cbn. lia.
  - rewrite !List.filter_app, !filter_verifying by reflexivity.
    cbn [List.filter is_CallOnComplete is_CallBatchMint logging app].
    pose proof (mintAndWait_counts h (claimIDs results) (unitAmounts results)
                  (proofArrays results)
                  (ui_at minting ids (replay [ShowModal; SetStep initial] ui)))
      as Hcounts.
    unfold trace in Hcounts. exact Hcounts.
Qed.

(** *** Transactions that fail or stay without a verdict *)

Section Submitted.
Variables (h : Hooks) (ui : UI) (addr : string) (ids : list string).
Variables (results : list VerifyResult) (c : Client).
Hypothesis Haddress : address h = Some addr.
Hypothesis Hconnected : addr <> "".
Hypothesis HclaimIds : claimIds h = Some ids.
Hypothesis Hverified :
  promise_all (map (fun claimId => verifyFractionClaim h claimId addr) ids)
  = Resolved results.
Hypothesis Hclient : client h = Some c.

Let submitted : list Effect :=
  verifying ids addr ++ logging
  ++ [SetTxPending true;
      CallBatchMint (claimIDs results) (unitAmounts results)
        (proofArrays results)].

(** X21. When the contract call is rejected, or the wait for the receipt
    fails, the workflow does not throw: it shows the error notification
    built by [parseError] from the rejection, logs the rejection, lowers the
    flag and returns, without calling [onComplete]; the step stays at
    [minting], respectively [waiting]. *)
Theorem rejected_transaction_is_reported :
  (forall e,
      batchMintClaimFractionsFromAllowlists c (claimIDs results)
        (unitAmounts results) (proofArrays results) = Rejected e ->
      initializeWrite h ui
      = (Normal tt,
         {| txPending := false; step := Some minting;
            modalVisible := modalVisible (ui_at minting ids ui) |},
         submitted
         ++ [Toast (parseError h e (toastError h)) error; ConsoleError e;
             SetTxPending false]))
  /\ (forall tx e,
        batchMintClaimFractionsFromAllowlists c (claimIDs results)
          (unitAmounts results) (proofArrays results) = Resolved tx ->
        wait tx 5 = Rejected e ->
        initializeWrite h ui
        = (Normal tt,
           {| txPending := false; step := Some waiting;
              modalVisible := modalVisible (ui_at minting ids ui) |},
           submitted
           ++ [SetStep waiting; CallWait 5;
               Toast (parseError h e (toastError h)) error; ConsoleError e;
               SetTxPending false])).
Proof.
  subst submitted. split.
  - intros e Hmint.
    rewrite (initializeWrite_resolved h ui addr ids Haddress Hconnected
               HclaimIds results Hverified).
    run_mint. rewrite Hclient. cbn. rewrite Hmint. cbn.
    rewrite <- !app_assoc. reflexivity.
  - intros tx e Hmint Hwait.
    rewrite (initializeWrite_resolved h ui addr ids Haddress Hconnected
               HclaimIds results Hverified).
    run_mint. rewrite Hclient. cbn. rewrite Hmint. cbn. rewrite Hwait. cbn.
    rewrite <- !app_assoc. reflexivity.
Qed.

(** X22. A receipt whose status is neither 0 nor 1 (or is missing) ends the
    workflow without any notification: nothing is shown, [onComplete] is
    not called, the step stays at [waiting]; the flag is lowered and the
    workflow returns. *)
Theorem receipt_without_verdict_is_silent (tx : Tx) (receipt : Receipt) :
  batchMintClaimFractionsFromAllowlists c (claimIDs results)
    (unitAmounts results) (proofArrays results) = Resolved tx ->
  wait tx 5 = Resolved receipt ->
  status receipt <> Some 0%Z ->
  status receipt <> Some 1%Z ->
  initializeWrite h ui
  = (Normal tt,
     {| txPending := false; step := Some waiting;
        modalVisible := modalVisible (ui_at minting ids ui) |},
     submitted ++ [SetStep waiting; CallWait 5; SetTxPending false]).
Proof.
  subst submitted. intros Hmint Hwait H0 H1.
  rewrite (initializeWrite_resolved h ui addr ids Haddress Hconnected
             HclaimIds results Hverified).
  run_mint. rewrite Hclient. cbn. rewrite Hmint. cbn. rewrite Hwait. cbn.
  assert (Hz : match status receipt with Some k => Z.eqb k 0 | None => false end
               = false).
  { destruct (status receipt) as [k |]; [| reflexivity].
    apply Z.eqb_neq. congruence. }
  assert (Ho : match status receipt with Some k => Z.eqb k 1 | None => false end
               = false).
  { destruct (status receipt) as [k |]; [| reflexivity].
    apply Z.eqb_neq. congruence. }
  rewrite Hz. cbn. rewrite Ho. cbn. rewrite <- !app_assoc. reflexivity.
Qed.

End Submitted.

Lemma rejected_transaction_is_reported_witness :
  initializeWrite (hooks_of a_verifier (Some a_rejecting_client)) initialUI
  = (Normal tt,
     {| txPending := false; step := Some minting; modalVisible := false |},
     [SetStep proofs; CallVerifyFractionClaim "1" "0xaa";
      CallVerifyFractionClaim "2" "0xaa"; ConsoleLog "Unique Verified proofs";
      ConsoleLog "Ids"; ConsoleLog "Units"; ConsoleLog "Proofs";
      SetStep minting; SetTxPending true;
      CallBatchMint ["1"; "2"] [10%Z; 20%Z] [["0xaa"; "0xab"]; ["0xbb"]];
      Toast "Something went wrong while minting" error;
      ConsoleError "user rejected transaction"; SetTxPending false]).
Proof.
  apply (proj1 (rejected_transaction_is_reported
                  (hooks_of a_verifier (Some a_rejecting_client)) initialUI
                  "0xaa" ["1"; "2"]
                  [Single (Some proof_1); Single (Some proof_2)]
                  a_rejecting_client eq_refl ltac:(discriminate) eq_refl
                  eq_refl eq_refl)
           "user rejected transaction").
  reflexivity.
Defined.

Lemma receipt_without_verdict_is_silent_witness :
  initializeWrite (hooks_of a_verifier (Some a_client_without_status)) initialUI
  = (Normal tt,
     {| txPending := false; step := Some waiting; modalVisible := false |},
     [SetStep proofs; CallVerifyFractionClaim "1" "0xaa";
      CallVerifyFractionClaim "2" "0xaa"; ConsoleLog "Unique Verified proofs";
      ConsoleLog "Ids"; ConsoleLog "Units"; ConsoleLog "Proofs";
      SetStep minting; SetTxPending true;
      CallBatchMint ["1"; "2"] [10%Z; 20%Z] [["0xaa"; "0xab"]; ["0xbb"]];
      SetStep waiting; CallWait 5; SetTxPending false]).
Proof.
  apply (receipt_without_verdict_is_silent
           (hooks_of a_verifier (Some a_client_without_status)) initialUI
           "0xaa" ["1"; "2"] [Single (Some proof_1); Single (Some proof_2)]
           a_client_without_status eq_refl ltac:(discriminate) eq_refl eq_refl
           eq_refl a_tx_without_status {| status := None |} eq_refl eq_refl).
  - discriminate.
  - discriminate.
Defined.

(** *** The order of the batch *)

Section FirstOccurrences.
Context {A : Type} (comparator : A -> A -> bool).

Let push (result : list A) (value : A) : list A :=
  if arrayIncludesWith result value comparator then result
  else result ++ [value].

Let fresh (result : list A) (value : A) : bool :=
  negb (arrayIncludesWith result value comparator).

Lemma fresh_app (r1 r2 : list A) (y : A) :
  fresh (r1 ++ r2) y = fresh r1 y && fresh r2 y.
Proof.
  unfold fresh, arrayIncludesWith. rewrite existsb_app. apply negb_orb.
Qed.

Lemma filter_fresh_app (r1 r2 : list A) (l : list A) :
  List.filter (fresh r2) (List.filter (fresh r1) l)
  = List.filter (fresh (r1 ++ r2)) l.
Proof.
  induction l as [| y l IH]; [reflexivity |].
  cbn [List.filter]. rewrite fresh_app.
  destruct (fresh r1 y); cbn [andb List.filter]; [| exact IH].
  destruct (fresh r2 y); rewrite IH; reflexivity.
Qed.

(** The loop of [baseUniq], started with [result], appends to [result] what
    it would have collected from the values that [result] does not
    include. *)
Lemma baseUniq_from (n : nat) :
  forall (array result : list A),
    (length array <= n)%nat ->
    fold_left push array result
    = result ++ fold_left push (List.filter (fresh result) array) [].
Proof.
  induction n as [| n IH]; intros array result Hn.
  - destruct array; [| cbn in Hn; lia]. cbn. rewrite app_nil_r. reflexivity.
  - destruct array as [| v array]; [cbn; rewrite app_nil_r; reflexivity |].
    cbn in Hn. cbn [fold_left List.filter].
    unfold push at 2, fresh at 1.
    destruct (arrayIncludesWith result v comparator) eqn:Hinc; cbn [negb].
    + apply IH. lia.
    + cbn [fold_left]. unfold push at 3. cbn [arrayIncludesWith existsb app].
      rewrite (IH array (result ++ [v])) by lia.
      rewrite (IH (List.filter (fresh result) array) [v]).
      * rewrite filter_fresh_app, <- app_assoc. reflexivity.
      * pose proof (List.filter_length_le (fresh result) array). lia.
Qed.

(** X23. [_.uniqWith] keeps the first value and, after it, what it keeps of
    the later values that the comparator does not match with the first:
    the output lists the values in the order of their first occurrence. *)
Theorem uniqWith_first_occurrences (x : A) (l : list A) :
  uniqWith (x :: l) comparator
  = x :: uniqWith (List.filter (fun y => negb (comparator y x)) l) comparator.
Proof.
  unfold uniqWith, baseUniq. fold push. cbn [fold_left].
  unfold push at 2. cbn [arrayIncludesWith existsb app].
  rewrite (baseUniq_from (length l) l [x]) by lia.
  cbn [app]. f_equal. f_equal. apply List.filter_ext. intros y.
  unfold fresh, arrayIncludesWith. cbn. rewrite orb_false_r. reflexivity.
Qed.

End FirstOccurrences.

(** *** Addresses in the eligibility table *)

Lemma lower_ascii_idempotent (c : ascii) :
  lower_ascii (lower_ascii c) = lower_ascii c.
Proof. destruct c as [[] [] [] [] [] [] [] []]; reflexivity. Qed.

Lemma toLowerCase_idempotent (s : string) :
  toLowerCase (toLowerCase s) = toLowerCase s.
Proof.
  induction s as [| c s IH]; cbn; [reflexivity |].
  rewrite lower_ascii_idempotent, IH. reflexivity.
Qed.

Lemma select_lower_stored (rows : list Row) (address : string)
    (hidden : bool) :
  List.filter
    (fun x => String.eqb (row_address x) (toLowerCase address)
              && Bool.eqb (row_hidden x) hidden)
    (List.filter
       (fun x => String.eqb (row_address x) (toLowerCase (row_address x)))
       rows)
  = List.filter
      (fun x => String.eqb (row_address x) (toLowerCase address)
                && Bool.eqb (row_hidden x) hidden)
      rows.
Proof.
  induction rows as [| x rows IH]; [reflexivity |].
  cbn [List.filter].
  destruct (String.eqb (row_address x) (toLowerCase (row_address x))) eqn:Hl;
    cbn [List.filter]; rewrite IH; [reflexivity |].
  destruct (String.eqb (row_address x) (toLowerCase address)) eqn:Ha;
    cbn [andb]; [| reflexivity].
  apply String.eqb_eq in Ha. apply String.eqb_neq in Hl.
  exfalso. apply Hl. rewrite Ha, toLowerCase_idempotent. reflexivity.
Qed.

(** X24. The eligibility query never throws and leaves the UI state alone;
    it answers the same for an address and for its lower-cased form; and a
    row whose address column is not in lower case is never selected, for
    any address. *)
Theorem getAllEligibility_lower_case (supabase : Table) (address : string)
    (ui : UI) :
  (exists ids, outcome (getAllEligibility supabase address ui) = Normal ids)
  /\ final (getAllEligibility supabase address ui) = ui
  /\ getAllEligibility supabase (toLowerCase address) ui
     = getAllEligibility supabase address ui
  /\ forall rows,
       supabase = Rows rows ->
       getAllEligibility supabase address ui
       = getAllEligibility
           (Rows (List.filter
                    (fun x => String.eqb (row_address x)
                                (toLowerCase (row_address x))) rows))
           address ui.
Proof.
  split; [| split; [| split]].
  - destruct supabase; eexists; reflexivity.
  - destruct supabase; reflexivity.
  - unfold getAllEligibility. rewrite toLowerCase_idempotent. reflexivity.
  - intros rows ->. unfold getAllEligibility, select_eq_address_eq_hidden.
    cbn [error_ data]. rewrite <- select_lower_stored. reflexivity.
Qed.

Lemma getAllEligibility_lower_case_witness :
  getAllEligibility
    (Rows [ {| row_address := "0xAA"; row_claimId := "9";
               row_hidden := false |};
            {| row_address := "0xaa"; row_claimId := "1";
               row_hidden := false |} ]) "0xAA" initialUI
  = getAllEligibility
      (Rows (List.filter
               (fun x => String.eqb (row_address x)
                           (toLowerCase (row_address x)))
               [ {| row_address := "0xAA"; row_claimId := "9";
                    row_hidden := false |};
                 {| row_address := "0xaa"; row_claimId := "1";
                    row_hidden := false |} ]))
      "0xAA" initialUI.
Proof.
  apply (proj2 (proj2 (proj2 (getAllEligibility_lower_case
           (Rows [ {| row_address := "0xAA"; row_claimId := "9";
                      row_hidden := false |};
                   {| row_address := "0xaa"; row_claimId := "1";
                      row_hidden := false |} ]) "0xAA" initialUI)))).
  reflexivity.
Defined.

Example mixed_case_row_is_never_selected :
  outcome
    (getAllEligibility
       (Rows [ {| row_address := "0xAA"; row_claimId := "9";
                  row_hidden := false |};
               {| row_address := "0xaa"; row_claimId := "1";
                  row_hidden := false |} ]) "0xAA" initialUI)
  = Normal ["1"].
Proof. reflexivity. Qed.

End MintFractionAllowlistBatchFacts.
